(** * Telegram polling bot: poll lifecycle and vote recorder

    A shallow embedding of [scripts/polling_bot_unified.py] (v1.1.0) and
    [scripts/polling_bot_threading.py] (v1.0.0).  The two scripts share most
    of [BotManager] verbatim; the shared methods are embedded once in
    [Module BotManager], the methods that differ live in [Module Unified]
    and [Module Threading].

    Python values are kept as the scripts have them: [int] is [Z], [str] is
    [string], [float] is a binary64 [float], [None]-able values are
    [option]s, lists are lists.  Exceptions, [os._exit] and the mutation of
    [self.poll_payload] and of the two MongoDB collections are threaded
    through a state-and-exception monad.  Everything that leaves the
    process (Bot API requests, [asyncio.sleep], log records, collection
    inserts) is appended to a trace, stamped with the model's clock. *)

From Stdlib Require Import ZArith String Ascii List DecimalString DecimalPos DecimalZ.
From Stdlib Require Import Floats.PrimFloat Uint63.
From stdpp Require Import base list gmap strings.

Local Open Scope string_scope.
Local Open Scope list_scope.
Local Open Scope Z_scope.

(** ** Python values and control flow *)

Module Py.

(** The exceptions the scripts can meet.  All of them derive from
    [Exception], so every [except Exception] clause catches them. *)
Inductive exn : Type :=
| IndexError
| AttributeError
| ZeroDivisionError
| BotConfigError (msg : string)
| DuplicateKeyError
| TelegramError.

(** How a statement ends: normally, by raising, or by [os._exit], which
    no handler intercepts. *)
Inductive outcome (A : Type) : Type :=
| Ok (a : A)
| Raise (e : exn)
| Exit (code : Z).
Arguments Ok {A} a.
Arguments Raise {A} e.
Arguments Exit {A} code.

(** [l[i]]: indices [0 .. len-1] count from the front, [-len .. -1] from
    the back, anything else raises [IndexError]. *)
Definition index {A} (l : list A) (i : Z) : outcome A :=
  let n := Z.of_nat (length l) in
  let j := if i <? 0 then n + i else i in
  if (0 <=? j) && (j <? n) then
    match l !! Z.to_nat j with
    | Some x => Ok x
    | None => Raise IndexError
    end
  else Raise IndexError.

(** [str(i)] for an [int]. *)
Definition str_of_int (i : Z) : string := NilZero.string_of_int (Z.to_int i).

(** Truth value of an optional string ([None] and [''] are falsy). *)
Definition truthy_str (s : option string) : bool :=
  match s with
  | Some s => negb (String.eqb s "")
  | None => false
  end.

(** Truth value of an [int]. *)
Definition truthy_int (i : Z) : bool := negb (i =? 0).

(** [s or default] on an optional string. *)
Definition str_or (s : option string) (default : string) : string :=
  match s with
  | Some s => if String.eqb s "" then default else s
  | None => default
  end.

(** [float(i)], exact for [|i| < 2^53]. *)
Definition float_of_int (i : Z) : float :=
  if i <? 0 then PrimFloat.opp (PrimFloat.of_uint63 (Uint63.of_Z (- i)))
  else PrimFloat.of_uint63 (Uint63.of_Z i).

(** [a / b] on two [int]s: true division, [ZeroDivisionError] on a zero
    divisor.  The quotient is the binary64 quotient of the converted
    operands, which is what CPython returns for operands below [2^53]. *)
Definition truediv (a b : Z) : outcome float :=
  if b =? 0 then Raise ZeroDivisionError
  else Ok (PrimFloat.div (float_of_int a) (float_of_int b)).

(** [s.startswith(p)]. *)
Definition startswith (p s : string) : bool := String.prefix p s.

(** [sep.join(l)]. *)
Definition join (sep : string) (l : list string) : string := String.concat sep l.

(** [set(l)] followed by iteration.  The order in which a Python [set]
    yields its elements is unspecified; the model iterates in the order
    of [elements], and no result below depends on that order. *)
Definition iter_set (l : list Z) : list Z := elements (list_to_set l : gset Z).

End Py.

Import Py.

(** ** The state-and-exception monad *)

Section Monad.
Context {S : Type}.

Definition M (A : Type) : Type := S -> outcome A * S.

Definition ret {A} (a : A) : M A := fun s => (Ok a, s).

Definition bind {A B} (m : M A) (k : A -> M B) : M B :=
  fun s =>
    match m s with
    | (Ok a, s') => k a s'
    | (Raise e, s') => (Raise e, s')
    | (Exit c, s') => (Exit c, s')
    end.

Definition raise {A} (e : exn) : M A := fun s => (Raise e, s).

(** [os._exit(code)] *)
Definition os_exit {A} (code : Z) : M A := fun s => (Exit code, s).

(** Lift a pure Python expression that may raise. *)
Definition lift {A} (o : outcome A) : M A := fun s => (o, s).

Definition get : M S := fun s => (Ok s, s).
Definition gets {A} (f : S -> A) : M A := fun s => (Ok (f s), s).
Definition modify (f : S -> S) : M unit := fun s => (Ok tt, f s).

(** [try: m except Exception as e: h e].  State changes made before the
    exception are kept; a process exit is not an exception. *)
Definition try_except {A} (m : M A) (h : exn -> M A) : M A :=
  fun s =>
    match m s with
    | (Raise e, s') => h e s'
    | r => r
    end.

(** [for x in l: body x] *)
Fixpoint for_each {A} (l : list A) (body : A -> M unit) : M unit :=
  match l with
  | [] => ret tt
  | x :: l' => bind (body x) (fun _ => for_each l' body)
  end.

Definition when (b : bool) (m : M unit) : M unit := if b then m else ret tt.

End Monad.

Arguments M : clear implicits.

Declare Scope py_scope.
Delimit Scope py_scope with py.
Notation "x <- m ;; k" := (bind m (fun x => k))
  (at level 100, m at next level, right associativity) : py_scope.
Notation "m ;; k" := (bind m (fun _ => k))
  (at level 100, right associativity) : py_scope.
Local Open Scope py_scope.

(** ** Telegram objects (python-telegram-bot) *)

Module Telegram.

(** One answer option of a poll, as the Bot API reports it. *)
Record PollOption := {
  text : string;
  voter_count : Z
}.

(** A [Poll]: what [message.poll] holds and what [stop_poll] returns. *)
Record Poll := {
  id : string;
  options : list PollOption;
  total_voter_count : Z
}.

(** A sent [Message]; [poll] is set on poll messages only. *)
Record Message := {
  message_id : Z;
  poll : option Poll
}.

Record User := {
  user_id_of : Z;               (* [user.id] *)
  username : option string
}.

Record PollAnswer := {
  poll_id : string;
  user : User;
  option_ids : list Z
}.

(** An [Update] dispatched by [PollAnswerHandler]. *)
Record Update := {
  poll_answer : PollAnswer
}.

End Telegram.

Import Telegram.

(** ** Records of the two collections *)

(** [PollStatus] *)
Inductive PollStatus : Type := ACTIVE | CLOSED | CANCELLED.

(** [PollStatus.X.value], the string the payload holds; the model keeps
    the member itself in [status]. *)
Definition status_value (s : PollStatus) : string :=
  match s with
  | ACTIVE => "active"
  | CLOSED => "closed"
  | CANCELLED => "cancelled"
  end.

#[global] Instance PollStatus_eq_dec : EqDecision PollStatus.
Proof. solve_decision. Defined.

(** One entry of [poll_payload["option_votes"]]. *)
Record OptionVote := {
  option_text : string;
  votes : Z;
  percentage : float
}.

(** [self.poll_payload].  A key that is absent or holds [None] is [None]
    here (the unified script creates [poll_start_time] and
    [poll_end_time] on first assignment, the threading script initialises
    them to [None]). *)
Record PollPayload := {
  _id : option string;
  message_ids : list Z;
  poll_creation_date : option string;
  poll_message_id : option Z;
  total_votes : Z;
  option_votes : list OptionVote;
  status : PollStatus;
  poll_question : option string;
  poll_options : list string;
  poll_start_time : option string;
  poll_end_time : option string
}.

(** A document of the [votes] collection. *)
Record VoteEntry := {
  vote_id : string;                        (* ['_id'] *)
  vote_user_id : Z;                        (* ['user_id'] *)
  selected_option : Z;
  vote_poll_id : string;                   (* ['poll_id'] *)
  vote_poll_creation_date : option string; (* ['poll_creation_date'] *)
  vote_timestamp : string;
  vote_username : string                   (* ['username'] *)
}.

(** [payload[key] = v], one function per key. *)
Definition set_id (v : option string) (p : PollPayload) : PollPayload :=
  {| _id := v;
     message_ids := message_ids p;
     poll_creation_date := poll_creation_date p;
     poll_message_id := poll_message_id p;
     total_votes := total_votes p;
     option_votes := option_votes p;
     status := status p;
     poll_question := poll_question p;
     poll_options := poll_options p;
     poll_start_time := poll_start_time p;
     poll_end_time := poll_end_time p |}.

Definition set_message_ids (v : list Z) (p : PollPayload) : PollPayload :=
  {| _id := _id p;
     message_ids := v;
     poll_creation_date := poll_creation_date p;
     poll_message_id := poll_message_id p;
     total_votes := total_votes p;
     option_votes := option_votes p;
     status := status p;
     poll_question := poll_question p;
     poll_options := poll_options p;
     poll_start_time := poll_start_time p;
     poll_end_time := poll_end_time p |}.

Definition set_poll_creation_date (v : option string) (p : PollPayload) : PollPayload :=
  {| _id := _id p;
     message_ids := message_ids p;
     poll_creation_date := v;
     poll_message_id := poll_message_id p;
     total_votes := total_votes p;
     option_votes := option_votes p;
     status := status p;
     poll_question := poll_question p;
     poll_options := poll_options p;
     poll_start_time := poll_start_time p;
     poll_end_time := poll_end_time p |}.

Definition set_poll_message_id (v : option Z) (p : PollPayload) : PollPayload :=
  {| _id := _id p;
     message_ids := message_ids p;
     poll_creation_date := poll_creation_date p;
     poll_message_id := v;
     total_votes := total_votes p;
     option_votes := option_votes p;
     status := status p;
     poll_question := poll_question p;
     poll_options := poll_options p;
     poll_start_time := poll_start_time p;
     poll_end_time := poll_end_time p |}.

Definition set_total_votes (v : Z) (p : PollPayload) : PollPayload :=
  {| _id := _id p;
     message_ids := message_ids p;
     poll_creation_date := poll_creation_date p;
     poll_message_id := poll_message_id p;
     total_votes := v;
     option_votes := option_votes p;
     status := status p;
     poll_question := poll_question p;
     poll_options := poll_options p;
     poll_start_time := poll_start_time p;
     poll_end_time := poll_end_time p |}.

Definition set_option_votes (v : list OptionVote) (p : PollPayload) : PollPayload :=
  {| _id := _id p;
     message_ids := message_ids p;
     poll_creation_date := poll_creation_date p;
     poll_message_id := poll_message_id p;
     total_votes := total_votes p;
     option_votes := v;
     status := status p;
     poll_question := poll_question p;
     poll_options := poll_options p;
     poll_start_time := poll_start_time p;
     poll_end_time := poll_end_time p |}.

Definition set_status (v : PollStatus) (p : PollPayload) : PollPayload :=
  {| _id := _id p;
     message_ids := message_ids p;
     poll_creation_date := poll_creation_date p;
     poll_message_id := poll_message_id p;
     total_votes := total_votes p;
     option_votes := option_votes p;
     status := v;
     poll_question := poll_question p;
     poll_options := poll_options p;
     poll_start_time := poll_start_time p;
     poll_end_time := poll_end_time p |}.

Definition set_poll_question (v : option string) (p : PollPayload) : PollPayload :=
  {| _id := _id p;
     message_ids := message_ids p;
     poll_creation_date := poll_creation_date p;
     poll_message_id := poll_message_id p;
     total_votes := total_votes p;
     option_votes := option_votes p;
     status := status p;
     poll_question := v;
     poll_options := poll_options p;
     poll_start_time := poll_start_time p;
     poll_end_time := poll_end_time p |}.

Definition set_poll_options (v : list string) (p : PollPayload) : PollPayload :=
  {| _id := _id p;
     message_ids := message_ids p;
     poll_creation_date := poll_creation_date p;
     poll_message_id := poll_message_id p;
     total_votes := total_votes p;
     option_votes := option_votes p;
     status := status p;
     poll_question := poll_question p;
     poll_options := v;
     poll_start_time := poll_start_time p;
     poll_end_time := poll_end_time p |}.

Definition set_poll_start_time (v : option string) (p : PollPayload) : PollPayload :=
  {| _id := _id p;
     message_ids := message_ids p;
     poll_creation_date := poll_creation_date p;
     poll_message_id := poll_message_id p;
     total_votes := total_votes p;
     option_votes := option_votes p;
     status := status p;
     poll_question := poll_question p;
     poll_options := poll_options p;
     poll_start_time := v;
     poll_end_time := poll_end_time p |}.

Definition set_poll_end_time (v : option string) (p : PollPayload) : PollPayload :=
  {| _id := _id p;
     message_ids := message_ids p;
     poll_creation_date := poll_creation_date p;
     poll_message_id := poll_message_id p;
     total_votes := total_votes p;
     option_votes := option_votes p;
     status := status p;
     poll_question := poll_question p;
     poll_options := poll_options p;
     poll_start_time := poll_start_time p;
     poll_end_time := v |}.

(** ** MongoDB collections (pymongo)

    A collection is the list of its documents in insertion order.  Every
    collection has a unique index on [_id]: [insert_one] of a document
    whose [_id] is already present raises [DuplicateKeyError] and stores
    nothing.  Connection failures are not modelled. *)

Module Mongo.

Section Collection.
Context {Doc Key : Type} `{EqDecision Key} (key : Doc -> Key).

Definition has_id (k : Key) (c : list Doc) : bool :=
  existsb (fun d => bool_decide (key d = k)) c.

(** [collection.insert_one(doc)] *)
Definition insert_one (doc : Doc) (c : list Doc) : outcome (list Doc) :=
  if has_id (key doc) c then Raise DuplicateKeyError else Ok (c ++ [doc]).

(** The documents stored under [k]. *)
Definition find (k : Key) (c : list Doc) : list Doc :=
  filter (fun d => key d = k) c.

End Collection.

End Mongo.

(** ** Configuration, outside world and process state *)

(** The module-level settings read from the environment at import time. *)
Record Config := {
  TG_BOT_API_TOKEN : option string;
  TG_CHAT_ID : Z;
  POLL_DURATION_IN_MINS : Z;
  POLL_OPTIONS : list string;
  REMINDER_MINS : Z;
  DEFAULT_IMAGE_PATH : option string;
  DEFAULT_IMAGE_CAPTION : string;
  ENABLE_IMAGE_SENDING : bool
}.

(** [datetime.now(UTC)] as [post_poll] reads it, in the three renderings
    the scripts use. *)
Record Timestamp := {
  date_isoformat : string;     (* [.date().isoformat()] *)
  isoformat : string;          (* [.isoformat()] *)
  strftime_minutes : string    (* [.strftime('%Y-%m-%d %H:%M')] *)
}.

(** What the outside answers during one run of [post_poll]: the clock
    readings and, per Bot API request, the returned object ([None] when
    the request raises, or, for a photo read from a local path, when
    opening the file does).  A delete request for a given message meets
    the same answer every time. *)
Record World := {
  now_at_start : Timestamp;
  now_at_close : string;
  send_poll_result : option Message;
  send_photo_result : option Message;
  send_reminder_result : option Message;
  stop_poll_result : option Poll;
  send_conclusion_result : option Message;
  delete_message_ok : Z -> bool
}.

Inductive Photo : Type :=
| PhotoUrl (url : string)
| PhotoFile (path : string).

(** The two texts the bot sends.  The conclusion text prints percentages
    with [:.1f]; the model keeps the values that are printed instead of
    the rendered string (the two scripts differ in where the heading
    carries its emoji, nothing else). *)
Inductive MessageText : Type :=
| ReminderText (reminder_mins : Z)
| ConclusionText (total : Z) (rows : list OptionVote) (winning_option : string).

Inductive Level : Type := INFO | WARNING | ERROR.

(** What the process does that is visible from outside, plus every
    assignment into [self.poll_payload].  A log record keeps its level and
    the text of its format string. *)
Inductive Event : Type :=
| Sleep (seconds : Z)
| SendPoll (chat_id : Z) (question : string) (options : list string)
| SendPhoto (chat_id : Z) (photo : Photo) (caption : string)
| SendMessage (chat_id : Z) (text : MessageText)
| StopPoll (chat_id : Z) (message_id : option Z)
| DeleteMessage (chat_id : Z) (message_id : Z)
| Log (level : Level) (msg : string)
| Store (payload : PollPayload)
| Shutdown.

(** The mutable state of the process.  [db_votes] and [db_polls] are
    [None] when the database is disabled.  [clock] counts the seconds
    spent in [asyncio.sleep]; requests take no time in the model. *)
Record State := {
  poll_payload : PollPayload;
  db_votes : option (list VoteEntry);
  db_polls : option (list PollPayload);
  clock : Z;
  trace : list (Z * Event)
}.

Definition with_payload (p : PollPayload) (s : State) : State :=
  {| poll_payload := p; db_votes := db_votes s; db_polls := db_polls s;
     clock := clock s; trace := trace s |}.

Definition with_db_votes (c : option (list VoteEntry)) (s : State) : State :=
  {| poll_payload := poll_payload s; db_votes := c; db_polls := db_polls s;
     clock := clock s; trace := trace s |}.

Definition with_db_polls (c : option (list PollPayload)) (s : State) : State :=
  {| poll_payload := poll_payload s; db_votes := db_votes s; db_polls := c;
     clock := clock s; trace := trace s |}.

Definition with_clock (t : Z) (s : State) : State :=
  {| poll_payload := poll_payload s; db_votes := db_votes s; db_polls := db_polls s;
     clock := t; trace := trace s |}.

Definition with_trace (tr : list (Z * Event)) (s : State) : State :=
  {| poll_payload := poll_payload s; db_votes := db_votes s; db_polls := db_polls s;
     clock := clock s; trace := tr |}.

(** Append an event, stamped with the current clock. *)
Definition emit (e : Event) : M State unit :=
  modify (fun s => with_trace (trace s ++ [(clock s, e)]) s).

Definition logger (l : Level) (msg : string) : M State unit := emit (Log l msg).

(** [await asyncio.sleep(delay)]: a delay that is zero or negative
    returns at once, so the clock advances by [max 0 delay]. *)
Definition asyncio_sleep (delay : Z) : M State unit :=
  emit (Sleep delay) ;;
  modify (fun s => with_clock (clock s + Z.max 0 delay) s).

(** A Bot API request: logged in the trace, then answered by the world. *)
Definition request {A} (e : Event) (answer : option A) : M State A :=
  emit e ;;
  match answer with
  | Some a => ret a
  | None => raise TelegramError
  end.

(** An assignment into [self.poll_payload]. *)
Definition store (p : PollPayload) : M State unit :=
  modify (with_payload p) ;; emit (Store p).

(** ** [BotManager]: the methods both scripts define identically *)

Module BotManager.

Section Methods.
Variable cfg : Config.
Variable w : World.

(** [update_poll_data(poll_msg, current_time, poll_question)] *)
Definition update_poll_data (poll_msg : Message) (current_time : Timestamp)
    (question : string) : M State PollPayload :=
  p <- gets poll_payload ;;
  match poll poll_msg with
  | None => raise AttributeError
  | Some pl =>
      let p' :=
        {| _id := Some (id pl);
           message_ids := [message_id poll_msg];
           poll_creation_date := Some (date_isoformat current_time);
           poll_message_id := Some (message_id poll_msg);
           total_votes := total_votes p;
           option_votes := option_votes p;
           status := ACTIVE;
           poll_question := Some question;
           poll_options := POLL_OPTIONS cfg;
           poll_start_time := Some (isoformat current_time);
           poll_end_time := poll_end_time p |} in
      store p' ;;
      ret p'
  end.

(** [add_message_id(message_id)] *)
Definition add_message_id (mid : Z) : M State unit :=
  when (truthy_int mid)
    (p <- gets poll_payload ;;
     store (set_message_ids (message_ids p ++ [mid]) p)).

(** [send_image(bot, chat_id, image_path, caption)] *)
Definition send_image (chat_id : Z) (image_path : option string)
    (caption : string) : M State (option Message) :=
  try_except
    (match image_path with
     | Some path =>
         if truthy_str image_path then
           message <-
             (if startswith "http" path
              then request (SendPhoto chat_id (PhotoUrl path) caption)
                           (send_photo_result w)
              else request (SendPhoto chat_id (PhotoFile path) caption)
                           (send_photo_result w)) ;;
           logger INFO "Sent image to Telegram" ;;
           ret (Some message)
         else
           logger INFO "No image path provided, skipping image send" ;;
           ret None
     | None =>
         logger INFO "No image path provided, skipping image send" ;;
         ret None
     end)
    (fun e => logger ERROR "Failed to send image: {e}" ;; ret None).

(** [delete_message(bot, chat_id, message_id)] *)
Definition delete_message (chat_id : Z) (mid : Z) : M State unit :=
  try_except
    (request (DeleteMessage chat_id mid)
             (if delete_message_ok w mid then Some tt else None) ;;
     logger INFO "Deleted message {message_id}")
    (fun e => logger ERROR "Failed to delete message {message_id}: {e}").

(** [_send_poll(bot, chat_id, poll_question)] *)
Definition _send_poll (chat_id : Z) (question : string) : M State Message :=
  request (SendPoll chat_id question (POLL_OPTIONS cfg)) (send_poll_result w).

(** [_send_image(bot, chat_id, image_path, image_caption)] *)
Definition _send_image (chat_id : Z) (image_path : option string)
    (caption : string) : M State (option Message) :=
  if truthy_str image_path then
    image_message <- send_image chat_id image_path caption ;;
    match image_message with
    | Some m => add_message_id (message_id m)
    | None => ret tt
    end ;;
    ret image_message
  else ret None.

(** [_send_reminder(bot, chat_id)] *)
Definition _send_reminder (chat_id : Z) : M State Message :=
  reminder_message <-
    request (SendMessage chat_id (ReminderText (REMINDER_MINS cfg)))
            (send_reminder_result w) ;;
  logger INFO "Sent {REMINDER_MINS}-minute reminder" ;;
  ret reminder_message.

(** The [for option in options] loop of [_process_poll_results], with
    its two accumulators. *)
Fixpoint tally (total : Z) (opts : list PollOption)
    (option_votes : list OptionVote) (max_votes : Z)
    : M State (list OptionVote * Z) :=
  match opts with
  | [] => ret (option_votes, max_votes)
  | option :: opts' =>
      let vote_count := voter_count option in
      quotient <- lift (truediv vote_count total) ;;
      let percentage := PrimFloat.mul quotient (float_of_int 100) in
      logger INFO "Option '{option.text}': {vote_count} votes ({percentage:.1f}%)" ;;
      tally total opts'
        (option_votes ++
           [{| option_text := text option; votes := vote_count;
               percentage := percentage |}])
        (Z.max max_votes vote_count)
  end.

(** [self.poll_payload["option_votes"] = ov] *)
Definition assign_option_votes (ov : list OptionVote) : M State unit :=
  p <- gets poll_payload ;;
  store (set_option_votes ov p).

(** [_process_poll_results(closed_poll, total_votes)] *)
Definition _process_poll_results (closed_poll : Poll) (total : Z)
    : M State string :=
  if 0 <? total then
    r <- tally total (options closed_poll) [] 0 ;;
    let '(option_votes, max_votes) := r in
    assign_option_votes option_votes ;;
    let winners := filter (fun opt => votes opt = max_votes) option_votes in
    if (1 <? Z.of_nat (length winners)) then
      ret ("Tie between: " +:+ join ", " (map option_text winners))
    else
      first <- lift (index winners 0) ;;
      ret (option_text first)
  else
    logger WARNING "No votes received" ;;
    assign_option_votes [] ;;
    ret "No votes received".

(** [_send_conclusion(bot, chat_id, total_votes, winning_option)] *)
Definition _send_conclusion (chat_id : Z) (total : Z) (winning_option : string)
    : M State unit :=
  rows <- gets (fun s => option_votes (poll_payload s)) ;;
  request (SendMessage chat_id (ConclusionText total rows winning_option))
          (send_conclusion_result w) ;;
  ret tt.

(** [_close_and_process_poll(bot, chat_id)] *)
Definition _close_and_process_poll (chat_id : Z) : M State Poll :=
  mid <- gets (fun s => poll_message_id (poll_payload s)) ;;
  closed_poll <- request (StopPoll chat_id mid) (stop_poll_result w) ;;
  logger INFO "Poll closed successfully" ;;
  let total := total_voter_count closed_poll in
  p <- gets poll_payload ;;
  store (set_poll_end_time (Some (now_at_close w))
           (set_status CLOSED (set_total_votes total p))) ;;
  winning_option <- _process_poll_results closed_poll total ;;
  _send_conclusion chat_id total winning_option ;;
  ret closed_poll.

(** The tail of [_cleanup_and_save]: delete the reminder, save the poll. *)
Definition delete_reminder_and_save (chat_id : Z)
    (reminder_message : option Message) : M State unit :=
  match reminder_message with
  | Some m => delete_message chat_id (message_id m)
  | None => ret tt
  end ;;
  polls <- gets db_polls ;;
  match polls with
  | Some c =>
      p <- gets poll_payload ;;
      c' <- lift (Mongo.insert_one _id p c) ;;
      modify (with_db_polls (Some c')) ;;
      logger INFO "Poll data saved to database"
  | None => ret tt
  end.

(** [receive_poll_answer(update, context)]; [now] is the reading of
    [datetime.now(UTC).isoformat()] taken for the vote. *)
Definition receive_poll_answer (update : Update) (now : string) : M State unit :=
  try_except
    (let poll_answer := poll_answer update in
     let user_id := user_id_of (user poll_answer) in
     let username := str_or (username (user poll_answer)) "Unknown" in
     selected_option <- lift (index (option_ids poll_answer) 0) ;;
     _ <- lift (index (POLL_OPTIONS cfg) selected_option) ;;
     logger INFO "User {username} ({user_id}) voted: {POLL_OPTIONS[selected_option]}" ;;
     votes <- gets db_votes ;;
     match votes with
     | Some c =>
         creation <- gets (fun s => poll_creation_date (poll_payload s)) ;;
         let vote_entry :=
           {| vote_id := str_of_int user_id +:+ "-" +:+ poll_id poll_answer;
              vote_user_id := user_id;
              selected_option := selected_option;
              vote_poll_id := poll_id poll_answer;
              vote_poll_creation_date := creation;
              vote_timestamp := now;
              vote_username := username |} in
         c' <- lift (Mongo.insert_one vote_id vote_entry c) ;;
         modify (with_db_votes (Some c')) ;;
         logger INFO "Vote saved to database"
     | None => ret tt
     end)
    (fun e => logger ERROR "Error processing poll answer: {e}").

End Methods.

End BotManager.

(** The payload [BotManager.__init__] builds (in the threading script,
    through [reset_poll_payload]). *)
Definition fresh_payload : PollPayload :=
  {| _id := None;
     message_ids := [];
     poll_creation_date := None;
     poll_message_id := None;
     total_votes := 0;
     option_votes := [];
     status := ACTIVE;
     poll_question := None;
     poll_options := [];
     poll_start_time := None;
     poll_end_time := None |}.

(** The process before [main] runs: the two collections as the import-time
    connection code left them, an empty trace, the clock at zero. *)
Definition process_start (votes : option (list VoteEntry))
    (polls : option (list PollPayload)) : State :=
  {| poll_payload := fresh_payload; db_votes := votes; db_polls := polls;
     clock := 0; trace := [] |}.

(** ** [scripts/polling_bot_unified.py] *)

Module Unified.

Section Script.
Variable cfg : Config.
Variable w : World.

(** [BotManager()] *)
Definition __init__ : M State unit := store fresh_payload.

(** [_cleanup_and_save(bot, chat_id, reminder_message)] *)
Definition _cleanup_and_save (chat_id : Z) (reminder_message : option Message)
    : M State unit :=
  ids <- gets (fun s => message_ids (poll_payload s)) ;;
  for_each ids (fun mid =>
    pmid <- gets (fun s => poll_message_id (poll_payload s)) ;;
    when (negb (bool_decide (Some mid = pmid)))
         (BotManager.delete_message w chat_id mid)) ;;
  BotManager.delete_reminder_and_save w chat_id reminder_message.

(** [_shutdown(application)]: sets [shutdown_event] and stops the
    application; the teardown of the tasks is not modelled further. *)
Definition _shutdown : M State unit :=
  logger INFO "Initiating graceful shutdown..." ;;
  emit Shutdown ;;
  logger INFO "Shutdown completed".

(** [_run_poll_lifecycle(bot, chat_id, application)] *)
Definition _run_poll_lifecycle (chat_id : Z) : M State unit :=
  try_except
    (asyncio_sleep ((POLL_DURATION_IN_MINS cfg - REMINDER_MINS cfg) * 60) ;;
     reminder_message <- BotManager._send_reminder cfg w chat_id ;;
     asyncio_sleep (REMINDER_MINS cfg * 60) ;;
     BotManager._close_and_process_poll w chat_id ;;
     _cleanup_and_save chat_id (Some reminder_message) ;;
     _shutdown)
    (fun e => logger ERROR "Error in poll lifecycle: {e}" ;; _shutdown).

(** [post_poll(application, image_path, image_caption)] *)
Definition post_poll (image_path : option string) (image_caption : string)
    : M State unit :=
  try_except
    (let chat_id := TG_CHAT_ID cfg in
     let current_time := now_at_start w in
     logger INFO "=================== Starting Poll ===================" ;;
     let poll_question := "Daily Poll - " +:+ strftime_minutes current_time in
     poll_msg <- BotManager._send_poll cfg w chat_id poll_question ;;
     BotManager.update_poll_data cfg poll_msg current_time poll_question ;;
     logger INFO "Poll posted with ID: {poll_msg.poll.id}" ;;
     BotManager._send_image w chat_id image_path image_caption ;;
     _run_poll_lifecycle chat_id)
    (fun e => logger ERROR "Failed to execute poll workflow: {e}" ;; _shutdown).

(** [run_bot_async()]: builds the manager and starts [post_poll]; the
    update listener that runs beside it dispatches to
    [BotManager.receive_poll_answer]. *)
Definition run_bot_async : M State unit :=
  __init__ ;;
  if ENABLE_IMAGE_SENDING cfg && truthy_str (DEFAULT_IMAGE_PATH cfg)
  then post_poll (DEFAULT_IMAGE_PATH cfg) (DEFAULT_IMAGE_CAPTION cfg)
  else post_poll None "".

(** [main()] *)
Definition main : M State unit :=
  (if truthy_str (TG_BOT_API_TOKEN cfg) then ret tt
   else logger ERROR "TG_BOT_API_TOKEN not found in environment variables" ;;
        raise (BotConfigError "Missing TG_BOT_API_TOKEN")) ;;
  (if truthy_int (TG_CHAT_ID cfg) then ret tt
   else logger ERROR "TG_CHAT_ID not found in environment variables" ;;
        raise (BotConfigError "Missing TG_CHAT_ID")) ;;
  (if POLL_DURATION_IN_MINS cfg <=? REMINDER_MINS cfg then
     logger ERROR "POLL_DURATION_IN_MINS must be greater than REMINDER_MINS" ;;
     raise (BotConfigError "Invalid poll duration configuration")
   else ret tt) ;;
  logger INFO "Starting Telegram Polling Bot..." ;;
  logger INFO "Poll duration: {POLL_DURATION_IN_MINS} minutes" ;;
  logger INFO "Reminder: {REMINDER_MINS} minutes before close" ;;
  logger INFO "Poll options: {POLL_OPTIONS}" ;;
  try_except run_bot_async
    (fun e =>
       match e with
       | BotConfigError _ => logger ERROR "Configuration error: {e}"
       | _ => logger ERROR "Bot crashed: {e}"
       end) ;;
  logger INFO "Bot shutdown complete".

End Script.

End Unified.

(** ** [scripts/polling_bot_threading.py] *)

Module Threading.

Section Script.
Variable cfg : Config.
Variable w : World.

(** [BotManager()], through [reset_poll_payload] *)
Definition __init__ : M State unit := store fresh_payload.

(** [_cleanup_and_save(bot, chat_id, reminder_message)] *)
Definition _cleanup_and_save (chat_id : Z) (reminder_message : option Message)
    : M State unit :=
  ids <- gets (fun s => message_ids (poll_payload s)) ;;
  let unique_message_ids := iter_set ids in
  for_each unique_message_ids (fun mid =>
    pmid <- gets (fun s => poll_message_id (poll_payload s)) ;;
    when (negb (bool_decide (Some mid = pmid)))
         (BotManager.delete_message w chat_id mid)) ;;
  BotManager.delete_reminder_and_save w chat_id reminder_message.

(** [_shutdown()] *)
Definition _shutdown : M State unit :=
  logger INFO "Poll workflow completed successfully" ;;
  os_exit 0.

(** [_run_poll_lifecycle(bot, chat_id)] *)
Definition _run_poll_lifecycle (chat_id : Z) : M State unit :=
  asyncio_sleep ((POLL_DURATION_IN_MINS cfg - REMINDER_MINS cfg) * 60) ;;
  reminder_message <- BotManager._send_reminder cfg w chat_id ;;
  asyncio_sleep (REMINDER_MINS cfg * 60) ;;
  BotManager._close_and_process_poll w chat_id ;;
  _cleanup_and_save chat_id (Some reminder_message) ;;
  _shutdown.

(** [post_poll(application, image_path, image_caption)] *)
Definition post_poll (image_path : option string) (image_caption : string)
    : M State unit :=
  try_except
    (let chat_id := TG_CHAT_ID cfg in
     let current_time := now_at_start w in
     logger INFO "=================== Starting Poll ===================" ;;
     let poll_question :=
       "📊 Daily Poll - " +:+ strftime_minutes current_time +:+ " UTC" in
     poll_msg <- BotManager._send_poll cfg w chat_id poll_question ;;
     pl <- match poll poll_msg with
           | Some pl => ret pl
           | None => raise AttributeError
           end ;;
     logger INFO "Poll posted with ID: {poll_msg.poll.id}" ;;
     (p <- gets poll_payload ;; store (set_id (Some (id pl)) p)) ;;
     (p <- gets poll_payload ;;
      store (set_poll_message_id (Some (message_id poll_msg)) p)) ;;
     (p <- gets poll_payload ;;
      store (set_poll_creation_date (Some (date_isoformat current_time)) p)) ;;
     (p <- gets poll_payload ;; store (set_poll_question (Some poll_question) p)) ;;
     (p <- gets poll_payload ;; store (set_poll_options (POLL_OPTIONS cfg) p)) ;;
     (p <- gets poll_payload ;;
      store (set_message_ids (message_ids p ++ [message_id poll_msg]) p)) ;;
     (if truthy_str image_path
      then BotManager._send_image w chat_id image_path image_caption ;; ret tt
      else ret tt) ;;
     _run_poll_lifecycle chat_id)
    (fun e => logger ERROR "Failed to execute poll workflow: {e}" ;; os_exit 1).

(** [main()]: the poll workflow runs in its own thread, the update
    listener ([application.run_polling]) dispatches to
    [BotManager.receive_poll_answer] beside it. *)
Definition main : M State unit :=
  if negb (truthy_str (TG_BOT_API_TOKEN cfg)) then
    logger ERROR "TG_BOT_API_TOKEN not found in environment variables"
  else if negb (truthy_int (TG_CHAT_ID cfg)) then
    logger ERROR "TG_CHAT_ID not found in environment variables"
  else
    logger INFO "Starting Telegram Polling Bot..." ;;
    __init__ ;;
    if ENABLE_IMAGE_SENDING cfg && truthy_str (DEFAULT_IMAGE_PATH cfg)
    then post_poll (DEFAULT_IMAGE_PATH cfg) (DEFAULT_IMAGE_CAPTION cfg)
    else post_poll None "".

End Script.

End Threading.

(** ** The update listener

    [PollAnswerHandler] hands every poll-answer update to
    [receive_poll_answer], one after the other, in arrival order.  Each
    update comes with the clock reading taken while it is handled. *)

Definition listener (cfg : Config) (updates : list (Update * string))
    : M State unit :=
  for_each updates (fun un => BotManager.receive_poll_answer cfg (fst un) (snd un)).

(** ** Reading a trace *)

(** The message identifiers of the delete requests, in the order issued. *)
Definition deleted (tr : list (Z * Event)) : list Z :=
  omap (fun te => match snd te with
                  | DeleteMessage _ mid => Some mid
                  | _ => None
                  end) tr.

(** The times at which a close request ([stop_poll]) was issued. *)
Definition stop_poll_times (tr : list (Z * Event)) : list Z :=
  omap (fun te => match snd te with
                  | StopPoll _ _ => Some (fst te)
                  | _ => None
                  end) tr.

(** The times at which a poll-creation request ([send_poll]) was issued. *)
Definition send_poll_times (tr : list (Z * Event)) : list Z :=
  omap (fun te => match snd te with
                  | SendPoll _ _ _ => Some (fst te)
                  | _ => None
                  end) tr.

(** The value of [status] after each assignment into the payload. *)
Definition statuses (tr : list (Z * Event)) : list PollStatus :=
  omap (fun te => match snd te with
                  | Store p => Some (status p)
                  | _ => None
                  end) tr.

(** One step of the status: [ACTIVE] may stay or move to a final value,
    a final value stays what it is. *)
Definition status_step (a b : PollStatus) : bool :=
  match a, b with
  | ACTIVE, _ => true
  | CLOSED, CLOSED => true
  | CANCELLED, CANCELLED => true
  | _, _ => false
  end.

(** Every two consecutive values are one [status_step] apart. *)
Fixpoint forward (l : list PollStatus) : bool :=
  match l with
  | a :: (b :: _) as l' => status_step a b && forward l'
  | _ => true
  end.

(** The log records a handler leaves for a dropped and for an accepted
    vote. *)
Definition error_logged (s : State) : State :=
  with_trace (trace s ++ [(clock s, Log ERROR "Error processing poll answer: {e}")]) s.

Definition vote_logged (s : State) : State :=
  with_trace
    (trace s ++
       [(clock s,
         Log INFO "User {username} ({user_id}) voted: {POLL_OPTIONS[selected_option]}")])
    s.

(** The document [receive_poll_answer] builds for an update whose first
    selected option is [i]. *)
Definition entry_of (u : Update) (i : Z) (now : string) (s : State) : VoteEntry :=
  let a := poll_answer u in
  {| vote_id := str_of_int (user_id_of (user a)) +:+ "-" +:+ poll_id a;
     vote_user_id := user_id_of (user a);
     selected_option := i;
     vote_poll_id := poll_id a;
     vote_poll_creation_date := poll_creation_date (poll_payload s);
     vote_timestamp := now;
     vote_username := str_or (username (user a)) "Unknown" |}.

(** The entry of [option_votes] that [_process_poll_results] builds for
    one option of the closed poll. *)
Definition vote_row (total : Z) (o : PollOption) : OptionVote :=
  {| option_text := text o;
     votes := voter_count o;
     percentage :=
       PrimFloat.mul
         (PrimFloat.div (float_of_int (voter_count o)) (float_of_int total))
         (float_of_int 100) |}.

(** The two trace entries of one [delete_message] call at time [t]. *)
Definition delete_events (w : World) (chat_id t mid : Z) : list (Z * Event) :=
  [(t, DeleteMessage chat_id mid);
   (t, if delete_message_ok w mid
       then Log INFO "Deleted message {message_id}"
       else Log ERROR "Failed to delete message {message_id}: {e}")].

(** Before the close: every recorded status is [ACTIVE]. *)
Definition still_active (s : State) : Prop :=
  Forall (fun st => st = ACTIVE) (statuses (trace s))
  /\ status (poll_payload s) = ACTIVE.

(** At any time: some [ACTIVE] values, then some [CLOSED] values, the
    payload holding the last one. *)
Definition active_then_closed (s : State) : Prop :=
  exists n m : nat,
    statuses (trace s) = replicate n ACTIVE ++ replicate m CLOSED
    /\ (status (poll_payload s) = CLOSED
        \/ (m = 0%nat /\ status (poll_payload s) = ACTIVE)).

(** ** Sample inputs *)

Definition sample_cfg : Config :=
  {| TG_BOT_API_TOKEN := Some "123:abc";
     TG_CHAT_ID := 1;
     POLL_DURATION_IN_MINS := 60;
     POLL_OPTIONS := ["Option A"; "Option B"];
     REMINDER_MINS := 15;
     DEFAULT_IMAGE_PATH := None;
     DEFAULT_IMAGE_CAPTION := "";
     ENABLE_IMAGE_SENDING := false |}.

(** A poll-answer update of user [uid] on poll [pid]. *)
Definition vote_update (uid : Z) (pid : string) (ids : list Z) : Update :=
  {| poll_answer :=
       {| poll_id := pid;
          user := {| user_id_of := uid; username := Some "alice" |};
          option_ids := ids |} |}.

Definition plain_message (mid : Z) : Message := {| message_id := mid; poll := None |}.

(** A world in which every request succeeds and the poll (message 9)
    closes with the given result. *)
Definition sample_world (closed : Poll) : World :=
  {| now_at_start :=
       {| date_isoformat := "2025-01-01";
          isoformat := "2025-01-01T00:00:00+00:00";
          strftime_minutes := "2025-01-01 00:00" |};
     now_at_close := "2025-01-01T01:00:00+00:00";
     send_poll_result :=
       Some {| message_id := 9;
               poll := Some {| id := "p"; options := []; total_voter_count := 0 |} |};
     send_photo_result := Some (plain_message 10);
     send_reminder_result := Some (plain_message 11);
     stop_poll_result := Some closed;
     send_conclusion_result := Some (plain_message 12);
     delete_message_ok := fun _ => true |}.

Definition closed_poll_of (total : Z) (counts : list (string * Z)) : Poll :=
  {| id := "p";
     options := map (fun tc => {| text := fst tc; voter_count := snd tc |}) counts;
     total_voter_count := total |}.

(** ** What the proofs speak of *)

(** The log record of one iteration of the tally loop. *)
Definition option_logged (t : Z) : Z * Event :=
  (t, Log INFO "Option '{option.text}': {vote_count} votes ({percentage:.1f}%)").

(** The outcome [_process_poll_results] draws from the winners. *)
Definition announce (winners : list OptionVote) : outcome string :=
  if 1 <? Z.of_nat (length winners)
  then Ok ("Tie between: " +:+ join ", " (map option_text winners))
  else match index winners 0 with
       | Ok r => Ok (option_text r)
       | Raise e => Raise e
       | Exit c => Exit c
       end.

(** The state [_process_poll_results] leaves when [total > 0]: one log
    record per option, then the tally stored in the payload. *)
Definition tallied (cp : Poll) (total : Z) (s : State) : State :=
  let rows := map (vote_row total) (options cp) in
  let p := set_option_votes rows (poll_payload s) in
  with_trace
    (trace s ++ map (fun _ => option_logged (clock s)) (options cp)
             ++ [(clock s, Store p)])
    (with_payload p s).

(** The state [_process_poll_results] leaves when there are no votes: a
    warning, then the empty tally stored in the payload. *)
Definition no_votes_recorded (s : State) : State :=
  let p := set_option_votes [] (poll_payload s) in
  with_trace
    (trace s ++ [(clock s, Log WARNING "No votes received"); (clock s, Store p)])
    (with_payload p s).

(** The payload after the [update] of [_close_and_process_poll]. *)
Definition closed_payload (w : World) (total : Z) (p : PollPayload) : PollPayload :=
  set_poll_end_time (Some (now_at_close w)) (set_status CLOSED (set_total_votes total p)).

(** The events of the deletion loop over [ids]. *)
Definition loop_events (w : World) (chat_id : Z) (s : State) (ids : list Z)
    : list (Z * Event) :=
  flat_map (fun mid =>
              if bool_decide (Some mid = poll_message_id (poll_payload s)) then []
              else delete_events w chat_id (clock s) mid) ids.

(** The identifier of the reminder, when one was sent. *)
Definition reminder_id (reminder_message : option Message) : list Z :=
  match reminder_message with
  | Some m => [message_id m]
  | None => []
  end.

(** [m] moves every state to an [R]-related one, whatever its outcome. *)
Definition preserves {A} (R : State -> State -> Prop) (m : M State A) : Prop :=
  forall s, R s (snd (m s)).

(** A preorder on states that the primitive steps respect: events other
    than payload stores, changes of the clock and of the collections,
    in-place updates of the payload that keep its status, and stores of
    the payloads in [allowed]. *)
Class Respects (R : State -> State -> Prop) (allowed : PollPayload -> Prop) : Prop := {
  respects_refl : forall s, R s s;
  respects_trans : forall s1 s2 s3, R s1 s2 -> R s2 s3 -> R s1 s3;
  respects_emit : forall e s, (forall p, e <> Store p) -> R s (snd (emit e s));
  respects_modify : forall (f : State -> State) s,
      trace (f s) = trace s -> poll_payload (f s) = poll_payload s -> R s (f s);
  respects_update : forall (f : PollPayload -> PollPayload) s,
      (forall p, status (f p) = status p) -> R s (snd (store (f (poll_payload s)) s));
  respects_store : forall p s, allowed p -> R s (snd (store p s))
}.

(** The later state's trace extends the earlier one's. *)
Definition extends (s s' : State) : Prop := exists l, trace s' = trace s ++ l.

(** Whoever starts with [ACTIVE] throughout ends so. *)
Definition stays_active (s s' : State) : Prop := still_active s -> still_active s'.

(** Whoever starts with [ACTIVE]s followed by [CLOSED]s ends so. *)
Definition stays_forward (s s' : State) : Prop :=
  active_then_closed s -> active_then_closed s'.

(** Started with [ACTIVE] throughout, [m] ends with [ACTIVE]s followed by
    [CLOSED]s. *)
Definition opens_then_closes {A} (m : M State A) : Prop :=
  forall s, still_active s -> active_then_closed (snd (m s)).

Section WaitEvents.
Variable cfg : Config.
Variable w : World.
Variable chat_id : Z.

(** The part of [_run_poll_lifecycle] both scripts share, up to the close;
    [k] is what the script does afterwards. *)
Definition waits_then (k : Message -> M State unit) : M State unit :=
  asyncio_sleep ((POLL_DURATION_IN_MINS cfg - REMINDER_MINS cfg) * 60) ;;
  reminder_message <- BotManager._send_reminder cfg w chat_id ;;
  asyncio_sleep (REMINDER_MINS cfg * 60) ;;
  BotManager._close_and_process_poll w chat_id ;;
  k reminder_message.

(** The events up to the reminder request, for a lifecycle entered at
    [t0]. *)
Definition until_reminder (t0 : Z) : list (Z * Event) :=
  [(t0, Sleep ((POLL_DURATION_IN_MINS cfg - REMINDER_MINS cfg) * 60));
   (t0 + (POLL_DURATION_IN_MINS cfg - REMINDER_MINS cfg) * 60,
    SendMessage chat_id (ReminderText (REMINDER_MINS cfg)))].

(** The events from there to the close request. *)
Definition until_close (t0 : Z) (pmid : option Z) : list (Z * Event) :=
  [(t0 + (POLL_DURATION_IN_MINS cfg - REMINDER_MINS cfg) * 60,
    Log INFO "Sent {REMINDER_MINS}-minute reminder");
   (t0 + (POLL_DURATION_IN_MINS cfg - REMINDER_MINS cfg) * 60,
    Sleep (REMINDER_MINS cfg * 60));
   (t0 + POLL_DURATION_IN_MINS cfg * 60, StopPoll chat_id pmid)].

End WaitEvents.

(** * Properties *)

(** Unfold the monad in the goal. *)
Ltac exec :=
  cbv [bind ret raise lift gets get modify emit logger store when try_except
       os_exit request asyncio_sleep BotManager.assign_option_votes].

(** ** Python helpers *)

Lemma index_ge {A} (l : list A) (i : Z) :
  Z.of_nat (length l) <= i -> index l i = Raise IndexError.
Proof.
  intros Hi. unfold index.
  assert (Hneg : (i <? 0) = false) by (apply Z.ltb_ge; lia).
  rewrite Hneg.
  assert (Hout : (i <? Z.of_nat (length l)) = false) by (apply Z.ltb_ge; lia).
  rewrite Hout, andb_false_r. reflexivity.
Qed.

Lemma index_nil {A} (i : Z) : index (@nil A) i = Raise IndexError.
Proof.
  unfold index. change (Z.of_nat (length (@nil A))) with 0.
  destruct (i <? 0) eqn:Hneg.
  - apply Z.ltb_lt in Hneg.
    destruct (0 <=? 0 + i) eqn:H0; [apply Z.leb_le in H0; lia | reflexivity].
  - rewrite Hneg, andb_false_r. reflexivity.
Qed.

Lemma index_0_cons {A} (x : A) (l : list A) : index (x :: l) 0 = Ok x.
Proof.
  unfold index. cbn [length].
  replace (0 <? 0) with false by reflexivity.
  assert (H : (0 <? Z.of_nat (S (length l))) = true) by (apply Z.ltb_lt; lia).
  rewrite H. reflexivity.
Qed.

Lemma index_cases {A} (l : list A) (i : Z) :
  index l i = Raise IndexError \/ exists x, index l i = Ok x.
Proof.
  unfold index.
  destruct ((0 <=? (if i <? 0 then Z.of_nat (length l) + i else i))
            && ((if i <? 0 then Z.of_nat (length l) + i else i) <? Z.of_nat (length l)));
    [|left; reflexivity].
  destruct (l !! Z.to_nat _) as [x|]; [right; exists x; reflexivity | left; reflexivity].
Qed.

(** ** Vote recorder *)

Section VoteRecorder.
Variable cfg : Config.

Ltac run :=
  unfold BotManager.receive_poll_answer, try_except, bind, lift, gets, modify,
    logger, emit, ret, raise.

Lemma receive_retraction u now s :
  option_ids (poll_answer u) = [] ->
  BotManager.receive_poll_answer cfg u now s = (Ok tt, error_logged s).
Proof.
  intros Hids. run. rewrite Hids, index_nil. reflexivity.
Qed.

Lemma receive_out_of_range u now s i rest :
  option_ids (poll_answer u) = i :: rest ->
  Z.of_nat (length (POLL_OPTIONS cfg)) <= i ->
  BotManager.receive_poll_answer cfg u now s = (Ok tt, error_logged s).
Proof.
  intros Hids Hi. run. rewrite Hids, index_0_cons, (index_ge _ _ Hi). reflexivity.
Qed.

Lemma receive_duplicate u now s i rest o c :
  option_ids (poll_answer u) = i :: rest ->
  index (POLL_OPTIONS cfg) i = Ok o ->
  db_votes s = Some c ->
  Mongo.has_id vote_id (vote_id (entry_of u i now s)) c = true ->
  BotManager.receive_poll_answer cfg u now s = (Ok tt, error_logged (vote_logged s)).
Proof.
  intros Hids Hidx Hdb Hdup. run. rewrite Hids, index_0_cons, Hidx.
  cbn. rewrite Hdb. unfold Mongo.insert_one.
  unfold entry_of in Hdup. cbn in Hdup |- *. rewrite Hdup. reflexivity.
Qed.

Lemma receive_fresh u now s i rest o c :
  option_ids (poll_answer u) = i :: rest ->
  index (POLL_OPTIONS cfg) i = Ok o ->
  db_votes s = Some c ->
  Mongo.has_id vote_id (vote_id (entry_of u i now s)) c = false ->
  db_votes (snd (BotManager.receive_poll_answer cfg u now s))
  = Some (c ++ [entry_of u i now s])
  /\ poll_payload (snd (BotManager.receive_poll_answer cfg u now s)) = poll_payload s
  /\ fst (BotManager.receive_poll_answer cfg u now s) = Ok tt.
Proof.
  intros Hids Hidx Hdb Hnew. run. rewrite Hids, index_0_cons, Hidx.
  cbn. rewrite Hdb. unfold Mongo.insert_one.
  unfold entry_of in Hnew. cbn in Hnew |- *. rewrite Hnew. cbn. auto.
Qed.

End VoteRecorder.

(** ** Collections *)

Section CollectionFacts.
Context {Doc Key : Type} `{EqDecision Key} (key : Doc -> Key).

Lemma has_id_false_find (k : Key) (c : list Doc) :
  Mongo.has_id key k c = false <-> Mongo.find key k c = [].
Proof.
  unfold Mongo.has_id, Mongo.find. induction c as [|d c IH].
  - split; reflexivity.
  - rewrite filter_cons. cbn [existsb].
    destruct (decide (key d = k)) as [Hk|Hk].
    + rewrite (bool_decide_eq_true_2 _ Hk). cbn. split; discriminate.
    + rewrite (bool_decide_eq_false_2 _ Hk). cbn. exact IH.
Qed.

Lemma has_id_app (k : Key) (c : list Doc) (d : Doc) :
  key d = k -> Mongo.has_id key k (c ++ [d]) = true.
Proof.
  intros Hk. unfold Mongo.has_id. rewrite existsb_app. cbn.
  rewrite (bool_decide_eq_true_2 _ Hk). rewrite orb_true_l, orb_true_r. reflexivity.
Qed.

Lemma find_app_new (k : Key) (c : list Doc) (d : Doc) :
  key d = k -> Mongo.find key k c = [] -> Mongo.find key k (c ++ [d]) = [d].
Proof.
  intros Hk Hc. unfold Mongo.find in *. rewrite filter_app, Hc, app_nil_l.
  rewrite filter_cons, filter_nil.
  destruct (decide (key d = k)); [reflexivity | contradiction].
Qed.

End CollectionFacts.

Section VoteRecorderClaims.
Variable cfg : Config.

(** The handler always returns: no exception leaves it. *)
Lemma receive_returns u now s :
  fst (BotManager.receive_poll_answer cfg u now s) = Ok tt.
Proof.
  unfold BotManager.receive_poll_answer, try_except, bind, lift, gets, modify,
    logger, emit, ret, raise.
  destruct (index_cases (option_ids (poll_answer u)) 0) as [Hi|[i Hi]];
    rewrite Hi; cbn; try reflexivity.
  destruct (index_cases (POLL_OPTIONS cfg) i) as [Ho|[o Ho]];
    rewrite Ho; cbn; try reflexivity.
  destruct (db_votes s) as [c|]; cbn; try reflexivity.
  unfold Mongo.insert_one. destruct (Mongo.has_id _ _ c); reflexivity.
Qed.

(** What the handler stores depends on the payload and the collection
    only, not on the trace or the clock. *)
Lemma receive_same_store u now s1 s2 :
  poll_payload s1 = poll_payload s2 ->
  db_votes s1 = db_votes s2 ->
  poll_payload (snd (BotManager.receive_poll_answer cfg u now s1))
  = poll_payload (snd (BotManager.receive_poll_answer cfg u now s2))
  /\ db_votes (snd (BotManager.receive_poll_answer cfg u now s1))
     = db_votes (snd (BotManager.receive_poll_answer cfg u now s2)).
Proof.
  intros Hp Hd.
  unfold BotManager.receive_poll_answer, try_except, bind, lift, gets, modify,
    logger, emit, ret, raise.
  destruct (index_cases (option_ids (poll_answer u)) 0) as [Hi|[i Hi]];
    rewrite Hi; cbn; [auto|].
  destruct (index_cases (POLL_OPTIONS cfg) i) as [Ho|[o Ho]];
    rewrite Ho; cbn; [auto|].
  rewrite <- Hd.
  destruct (db_votes s1) as [c|] eqn:Hc; cbn; [|split; congruence].
  rewrite <- Hp. unfold Mongo.insert_one.
  destruct (Mongo.has_id _ _ c); cbn; split; congruence.
Qed.

Lemma listener_same_store updates : forall s1 s2,
  poll_payload s1 = poll_payload s2 ->
  db_votes s1 = db_votes s2 ->
  fst (listener cfg updates s1) = Ok tt
  /\ db_votes (snd (listener cfg updates s1)) = db_votes (snd (listener cfg updates s2)).
Proof.
  induction updates as [|[u now] updates IH]; intros s1 s2 Hp Hd.
  - cbn. auto.
  - unfold listener in *. cbn [for_each fst snd]. unfold bind.
    pose proof (receive_returns u now s1) as R1.
    pose proof (receive_returns u now s2) as R2.
    destruct (receive_same_store u now s1 s2 Hp Hd) as [Hp' Hd'].
    destruct (BotManager.receive_poll_answer cfg u now s1) as [o1 t1].
    destruct (BotManager.receive_poll_answer cfg u now s2) as [o2 t2].
    cbn in R1, R2, Hp', Hd'. subst o1 o2. apply IH; assumption.
Qed.

(** A dropped update changes nothing for the updates that follow. *)
Lemma listener_after_drop u now later s :
  BotManager.receive_poll_answer cfg u now s = (Ok tt, error_logged s) ->
  fst (listener cfg ((u, now) :: later) s) = Ok tt
  /\ db_votes (snd (listener cfg ((u, now) :: later) s))
     = db_votes (snd (listener cfg later s)).
Proof.
  intros Hdrop. unfold listener. cbn [for_each fst snd]. unfold bind.
  rewrite Hdrop. apply listener_same_store; reflexivity.
Qed.

(** C7: a vote event whose selected option index is equal to or beyond the
    length of the configured option list writes no vote record: the handler
    returns normally, leaving the state as it was but for one ERROR log
    record, and the events that follow are served as if the dropped event
    had never arrived. *)
Theorem out_of_range_vote_dropped u now s i rest later :
  option_ids (poll_answer u) = i :: rest ->
  Z.of_nat (length (POLL_OPTIONS cfg)) <= i ->
  BotManager.receive_poll_answer cfg u now s = (Ok tt, error_logged s)
  /\ db_votes (error_logged s) = db_votes s
  /\ fst (listener cfg ((u, now) :: later) s) = Ok tt
  /\ db_votes (snd (listener cfg ((u, now) :: later) s))
     = db_votes (snd (listener cfg later s)).
Proof.
  intros Hids Hi.
  pose proof (receive_out_of_range cfg u now s i rest Hids Hi) as Hdrop.
  split; [exact Hdrop|]. split; [reflexivity|].
  apply listener_after_drop. exact Hdrop.
Qed.

(** C10: a vote event with an empty list of selected options (a
    retraction) writes no vote record and does not crash: the handler
    returns normally, leaving the state as it was but for one ERROR log
    record, and the events that follow are served as if the retraction had
    never arrived. *)
Theorem retraction_dropped u now s later :
  option_ids (poll_answer u) = [] ->
  BotManager.receive_poll_answer cfg u now s = (Ok tt, error_logged s)
  /\ db_votes (error_logged s) = db_votes s
  /\ fst (listener cfg ((u, now) :: later) s) = Ok tt
  /\ db_votes (snd (listener cfg ((u, now) :: later) s))
     = db_votes (snd (listener cfg later s)).
Proof.
  intros Hids.
  pose proof (receive_retraction cfg u now s Hids) as Hdrop.
  split; [exact Hdrop|]. split; [reflexivity|].
  apply listener_after_drop. exact Hdrop.
Qed.

(** C1, as the scripts have it: of two valid vote events for the same
    (voter, poll) key arriving at a collection that holds no record for
    the key, the first is stored and the second is rejected as a duplicate
    (logged, nothing written).  Afterwards the collection holds exactly
    one record for the key, and it is the first event's record. *)
Theorem duplicate_vote_keeps_first u1 u2 now1 now2 s c i1 r1 o1 i2 r2 o2 :
  db_votes s = Some c ->
  user_id_of (user (poll_answer u1)) = user_id_of (user (poll_answer u2)) ->
  poll_id (poll_answer u1) = poll_id (poll_answer u2) ->
  option_ids (poll_answer u1) = i1 :: r1 ->
  index (POLL_OPTIONS cfg) i1 = Ok o1 ->
  option_ids (poll_answer u2) = i2 :: r2 ->
  index (POLL_OPTIONS cfg) i2 = Ok o2 ->
  Mongo.find vote_id (vote_id (entry_of u1 i1 now1 s)) c = [] ->
  let s1 := snd (BotManager.receive_poll_answer cfg u1 now1 s) in
  let s2 := snd (BotManager.receive_poll_answer cfg u2 now2 s1) in
  db_votes s2 = Some (c ++ [entry_of u1 i1 now1 s])
  /\ Mongo.find vote_id (vote_id (entry_of u1 i1 now1 s)) (c ++ [entry_of u1 i1 now1 s])
     = [entry_of u1 i1 now1 s]
  /\ selected_option (entry_of u1 i1 now1 s) = i1
  /\ db_votes s2 = db_votes s1
  /\ BotManager.receive_poll_answer cfg u2 now2 s1 = (Ok tt, error_logged (vote_logged s1)).
Proof.
  intros Hdb Huid Hpid Hids1 Hidx1 Hids2 Hidx2 Hnone s1 s2.
  destruct (receive_fresh cfg u1 now1 s i1 r1 o1 c Hids1 Hidx1 Hdb) as (Hdb1 & Hp1 & _).
  { apply has_id_false_find. exact Hnone. }
  fold s1 in Hdb1, Hp1.
  assert (Hdup : BotManager.receive_poll_answer cfg u2 now2 s1
                 = (Ok tt, error_logged (vote_logged s1))).
  { apply (receive_duplicate cfg u2 now2 s1 i2 r2 o2 _ Hids2 Hidx2 Hdb1).
    apply has_id_app. unfold entry_of. cbn. rewrite Huid, Hpid. reflexivity. }
  assert (Hs2 : db_votes s2 = db_votes s1).
  { unfold s2. rewrite Hdup. reflexivity. }
  split; [rewrite Hs2; exact Hdb1|].
  split; [apply find_app_new; [reflexivity | exact Hnone]|].
  split; [reflexivity|]. split; [exact Hs2 | exact Hdup].
Qed.

End VoteRecorderClaims.

Lemma out_of_range_vote_dropped_witness :
  option_ids (poll_answer (vote_update 7 "p" [2])) = [2]
  /\ Z.of_nat (length (POLL_OPTIONS sample_cfg)) <= 2
  /\ db_votes (snd (listener sample_cfg
                      [(vote_update 7 "p" [2], "t1"); (vote_update 8 "p" [1], "t2")]
                      (process_start (Some []) None)))
     = db_votes (snd (listener sample_cfg [(vote_update 8 "p" [1], "t2")]
                        (process_start (Some []) None))).
Proof.
  split; [reflexivity|]. split; [cbn; lia|].
  apply (out_of_range_vote_dropped sample_cfg (vote_update 7 "p" [2]) "t1"
           (process_start (Some []) None) 2 [] [(vote_update 8 "p" [1], "t2")]);
    [reflexivity | cbn; lia].
Defined.

Lemma retraction_dropped_witness :
  option_ids (poll_answer (vote_update 7 "p" [])) = []
  /\ BotManager.receive_poll_answer sample_cfg (vote_update 7 "p" []) "t1"
       (process_start (Some []) None)
     = (Ok tt, error_logged (process_start (Some []) None)).
Proof.
  split; [reflexivity|].
  apply (retraction_dropped sample_cfg (vote_update 7 "p" []) "t1"
           (process_start (Some []) None) []); reflexivity.
Defined.

Lemma duplicate_vote_keeps_first_witness :
  let s := process_start (Some []) None in
  let s1 := snd (BotManager.receive_poll_answer sample_cfg (vote_update 7 "p" [0]) "t1" s) in
  let s2 := snd (BotManager.receive_poll_answer sample_cfg (vote_update 7 "p" [1]) "t2" s1) in
  db_votes s2 = Some ([] ++ [entry_of (vote_update 7 "p" [0]) 0 "t1" s]).
Proof.
  apply (duplicate_vote_keeps_first sample_cfg (vote_update 7 "p" [0])
           (vote_update 7 "p" [1]) "t1" "t2" (process_start (Some []) None)
           [] 0 [] "Option A" 1 [] "Option B");
    reflexivity.
Defined.

(** The claim C1 as the specification words it fails: after a vote for
    option 0 and a later vote for option 1 by the same voter on the same
    poll, the collection holds no record of the key with option 1. *)
Lemma later_vote_is_not_stored :
  let s := process_start (Some []) None in
  let s1 := snd (BotManager.receive_poll_answer sample_cfg (vote_update 7 "p" [0]) "t1" s) in
  let s2 := snd (BotManager.receive_poll_answer sample_cfg (vote_update 7 "p" [1]) "t2" s1) in
  ~ (exists c r, db_votes s2 = Some c
                 /\ Mongo.find vote_id "7-p" c = [r]
                 /\ selected_option r = 1).
Proof.
  intros s s1 s2 (c & r & Hc & Hr & Hsel).
  vm_compute in Hc. injection Hc as <-.
  vm_compute in Hr. injection Hr as <-.
  discriminate Hsel.
Qed.

(** ** Tally and winner *)

Lemma fold_max_lower (l : list Z) : forall m, m <= fold_left Z.max l m.
Proof.
  induction l as [|x l IH]; intros m; cbn; [lia|].
  specialize (IH (Z.max m x)). lia.
Qed.

Lemma fold_max_upper (l : list Z) : forall m x, In x l -> x <= fold_left Z.max l m.
Proof.
  induction l as [|y l IH]; intros m x Hx; cbn; [contradiction|].
  destruct Hx as [->|Hx].
  - pose proof (fold_max_lower l (Z.max m x)). lia.
  - apply IH. exact Hx.
Qed.

Lemma fold_max_attained (l : list Z) : forall m,
  fold_left Z.max l m = m \/ In (fold_left Z.max l m) l.
Proof.
  induction l as [|y l IH]; intros m; cbn; [left; reflexivity|].
  destruct (IH (Z.max m y)) as [H|H].
  - rewrite H. destruct (Z.max_spec m y) as [[_ ->]|[_ ->]]; auto.
  - right. right. exact H.
Qed.

(** The maximum the loop computes, once a non-negative bound is attained. *)
Lemma fold_max_is (l : list Z) (v : Z) :
  0 <= v -> In v l -> (forall x, In x l -> x <= v) ->
  fold_left Z.max l 0 = v.
Proof.
  intros Hv Hin Hle.
  pose proof (fold_max_upper l 0 v Hin) as Hup.
  destruct (fold_max_attained l 0) as [H|H].
  - lia.
  - specialize (Hle _ H). lia.
Qed.

Lemma filter_vote_rows (total mx : Z) (opts : list PollOption) :
  filter (fun r => votes r = mx) (map (vote_row total) opts)
  = map (vote_row total) (filter (fun o => voter_count o = mx) opts).
Proof.
  induction opts as [|o opts IH]; [reflexivity|].
  cbn [map]. rewrite !filter_cons. cbn [votes vote_row].
  destruct (decide (voter_count o = mx)); cbn [map]; rewrite IH; reflexivity.
Qed.

(** With a non-zero total the loop runs to its end without raising. *)
Lemma tally_nonzero (total : Z) (opts : list PollOption) :
  total <> 0 ->
  forall rows mx s,
    BotManager.tally total opts rows mx s
    = (Ok (rows ++ map (vote_row total) opts,
           fold_left Z.max (map voter_count opts) mx),
       with_trace (trace s ++ map (fun _ => option_logged (clock s)) opts) s).
Proof.
  intros Htotal. induction opts as [|o opts IH]; intros rows mx s.
  - cbn. unfold ret. rewrite !app_nil_r. destruct s; reflexivity.
  - cbn [BotManager.tally]. unfold bind at 1. unfold lift, truediv.
    destruct (total =? 0) eqn:Hz; [apply Z.eqb_eq in Hz; contradiction|].
    unfold bind at 1. unfold logger, emit, modify.
    rewrite IH. cbn [map fold_left trace clock with_trace].
    rewrite <- !app_assoc. reflexivity.
Qed.


(** What [_process_poll_results] returns and records when [total > 0]. *)
Lemma process_positive (cp : Poll) (total : Z) (s : State) :
  0 < total ->
  BotManager._process_poll_results cp total s
  = (announce
       (filter (fun r => votes r = fold_left Z.max (map voter_count (options cp)) 0)
               (map (vote_row total) (options cp))),
     tallied cp total s).
Proof.
  intros Htotal.
  unfold BotManager._process_poll_results.
  assert (Hpos : (0 <? total) = true) by (apply Z.ltb_lt; exact Htotal).
  rewrite Hpos. unfold bind at 1.
  rewrite tally_nonzero by lia. cbn [app].
  unfold bind at 1.
  unfold BotManager.assign_option_votes, store, bind, gets, modify, emit, ret, lift.
  unfold modify, announce, tallied.
  destruct (1 <? Z.of_nat (length _)); [|destruct (index _ 0)];
    unfold with_trace, with_payload;
    cbn [trace clock poll_payload db_votes db_polls];
    rewrite <- ?app_assoc; reflexivity.
Qed.

Lemma process_no_votes (cp : Poll) (total : Z) (s : State) :
  total <= 0 ->
  BotManager._process_poll_results cp total s
  = (Ok "No votes received", no_votes_recorded s).
Proof.
  intros Htotal. unfold BotManager._process_poll_results.
  assert (Hneg : (0 <? total) = false) by (apply Z.ltb_ge; exact Htotal).
  rewrite Hneg.
  exec. unfold no_votes_recorded, with_trace, with_payload.
  cbn [trace clock poll_payload db_votes db_polls fst snd].
  rewrite <- ?app_assoc. reflexivity.
Qed.

Lemma announce_no_zero_division (winners : list OptionVote) :
  announce winners <> Raise ZeroDivisionError.
Proof.
  unfold announce. destruct (1 <? Z.of_nat (length winners)); [discriminate|].
  destruct (index_cases winners 0) as [H|[r H]]; rewrite H; discriminate.
Qed.

Lemma unique_filter (opts : list PollOption) : forall (i : nat) (o : PollOption),
  opts !! i = Some o ->
  (forall (j : nat) o', opts !! j = Some o' -> j <> i -> voter_count o' < voter_count o) ->
  filter (fun o' => voter_count o' = voter_count o) opts = [o].
Proof.
  induction opts as [|x opts IH]; intros i o Hi Hlt; [discriminate|].
  rewrite filter_cons. destruct i as [|i]; cbn in Hi.
  - injection Hi as ->. rewrite decide_True by reflexivity. f_equal.
    clear IH. induction opts as [|y opts IH]; [reflexivity|].
    rewrite filter_cons.
    assert (Hy : voter_count y < voter_count o) by (apply (Hlt 1%nat y); [reflexivity | lia]).
    rewrite decide_False by lia. apply IH.
    intros j o' Hj Hne. destruct j as [|j]; [contradiction|].
    apply (Hlt (S (S j)) o'); [exact Hj | lia].
  - assert (Hx : voter_count x < voter_count o) by (apply (Hlt 0%nat x); [reflexivity | lia]).
    rewrite decide_False by lia. apply (IH i o Hi).
    intros j o' Hj Hne. apply (Hlt (S j) o'); [exact Hj | lia].
Qed.

(** C5: when the close response has a positive total and exactly one
    option attains the maximum vote count (every other position holds a
    strictly smaller count), [_process_poll_results] returns that option's
    text.  Vote counts reported by the Bot API are numbers of users, so
    the maximum is not negative. *)
Theorem unique_maximum_wins (cp : Poll) (total : Z) (s : State)
    (i : nat) (o : PollOption) :
  0 < total ->
  options cp !! i = Some o ->
  0 <= voter_count o ->
  (forall (j : nat) o', options cp !! j = Some o' -> j <> i ->
                        voter_count o' < voter_count o) ->
  fst (BotManager._process_poll_results cp total s) = Ok (text o).
Proof.
  intros Htotal Hi Hnonneg Hlt.
  rewrite process_positive by exact Htotal. cbn [fst].
  assert (Hmax : fold_left Z.max (map voter_count (options cp)) 0 = voter_count o).
  { apply fold_max_is; [exact Hnonneg | |].
    - apply in_map. apply list_elem_of_In. apply list_elem_of_lookup. eauto.
    - intros x Hx. apply in_map_iff in Hx as (o' & <- & Ho').
      apply list_elem_of_In, list_elem_of_lookup in Ho' as [j Hj].
      destruct (decide (j = i)) as [->|Hne].
      + rewrite Hi in Hj. injection Hj as <-. lia.
      + specialize (Hlt j o' Hj Hne). lia. }
  rewrite Hmax, filter_vote_rows, (unique_filter _ i o Hi Hlt).
  unfold announce. cbn [map length]. rewrite index_0_cons. reflexivity.
Qed.

(** C6: when the close response has a positive total and two or more
    options share the maximum vote count [m], [_process_poll_results]
    returns the tie outcome: the fixed prefix followed by the texts of
    exactly the options whose count is [m], in the order of the option
    list, joined by a comma and a space. *)
Theorem tie_names_every_maximum (cp : Poll) (total : Z) (s : State) (m : Z) :
  0 < total ->
  0 <= m ->
  (forall o, In o (options cp) -> voter_count o <= m) ->
  (2 <= length (filter (fun o => voter_count o = m) (options cp)))%nat ->
  fst (BotManager._process_poll_results cp total s)
  = Ok ("Tie between: " +:+
        join ", " (map text (filter (fun o => voter_count o = m) (options cp)))).
Proof.
  intros Htotal Hnonneg Hle Htie.
  rewrite process_positive by exact Htotal. cbn [fst].
  assert (Hmax : fold_left Z.max (map voter_count (options cp)) 0 = m).
  { apply fold_max_is; [exact Hnonneg | |].
    - destruct (filter (fun o => voter_count o = m) (options cp)) as [|o tied] eqn:Hf;
        [cbn in Htie; lia|].
      assert (Ho : o ∈ filter (fun o => voter_count o = m) (options cp))
        by (rewrite Hf; left).
      apply list_elem_of_filter in Ho as [Hm Ho].
      apply in_map_iff. exists o. split; [exact Hm | apply list_elem_of_In; exact Ho].
    - intros x Hx. apply in_map_iff in Hx as (o' & <- & Ho'). apply Hle. exact Ho'. }
  rewrite Hmax, filter_vote_rows. unfold announce.
  rewrite length_map.
  assert (Hlen : (1 <? Z.of_nat (length (filter (fun o => voter_count o = m) (options cp))))
                 = true) by (apply Z.ltb_lt; lia).
  rewrite Hlen, map_map. reflexivity.
Qed.

(** C4: when the close response reports a total voter count of 0, the
    tally stage evaluates no quotient: [_process_poll_results] returns the
    sentinel at once, having logged one warning and stored an empty
    [option_votes]; the conclusion that [_close_and_process_poll] then
    sends carries total 0, no per-option row and the sentinel.  Whatever
    the total, the stage never raises [ZeroDivisionError]: the quotient by
    the total is reached under [total > 0] only. *)
Theorem no_votes_no_division (w : World) (chat_id : Z) (cp : Poll) (s : State) :
  stop_poll_result w = Some cp ->
  total_voter_count cp = 0 ->
  BotManager._process_poll_results cp (total_voter_count cp) s
  = (Ok "No votes received", no_votes_recorded s)
  /\ option_votes (poll_payload (no_votes_recorded s)) = []
  /\ trace (snd (BotManager._close_and_process_poll w chat_id s))
     = trace s ++
       [(clock s, StopPoll chat_id (poll_message_id (poll_payload s)));
        (clock s, Log INFO "Poll closed successfully");
        (clock s, Store (closed_payload w 0 (poll_payload s)));
        (clock s, Log WARNING "No votes received");
        (clock s, Store (set_option_votes [] (closed_payload w 0 (poll_payload s))));
        (clock s, SendMessage chat_id (ConclusionText 0 [] "No votes received"))]
  /\ poll_payload (snd (BotManager._close_and_process_poll w chat_id s))
     = set_option_votes [] (closed_payload w 0 (poll_payload s))
  /\ (forall total s',
        fst (BotManager._process_poll_results cp total s') <> Raise ZeroDivisionError).
Proof.
  intros Hstop Htotal. rewrite Htotal.
  split; [apply process_no_votes; lia|]. split; [reflexivity|].
  assert (Hrun : forall r, send_conclusion_result w = r ->
            snd (BotManager._close_and_process_poll w chat_id s)
            = with_trace
                (trace s ++
                 [(clock s, StopPoll chat_id (poll_message_id (poll_payload s)));
                  (clock s, Log INFO "Poll closed successfully");
                  (clock s, Store (closed_payload w 0 (poll_payload s)));
                  (clock s, Log WARNING "No votes received");
                  (clock s, Store (set_option_votes [] (closed_payload w 0 (poll_payload s))));
                  (clock s, SendMessage chat_id (ConclusionText 0 [] "No votes received"))])
                (with_payload (set_option_votes [] (closed_payload w 0 (poll_payload s))) s)).
  { intros r Hr. unfold BotManager._close_and_process_poll. exec.
    rewrite Hstop, Htotal. rewrite process_no_votes by lia.
    unfold BotManager._send_conclusion. exec. rewrite Hr.
    unfold no_votes_recorded, closed_payload, with_trace, with_payload.
    destruct r; cbn [fst snd trace clock poll_payload db_votes db_polls option_votes
                     set_option_votes];
      rewrite <- !app_assoc; reflexivity. }
  split; [|split].
  - rewrite (Hrun _ eq_refl). reflexivity.
  - rewrite (Hrun _ eq_refl). reflexivity.
  - intros total s'. destruct (Z.lt_ge_cases 0 total) as [Hpos|Hle].
    + rewrite process_positive by exact Hpos. apply announce_no_zero_division.
    + rewrite process_no_votes by exact Hle. discriminate.
Qed.

Lemma no_votes_no_division_witness :
  let cp := closed_poll_of 0 [("Option A", 0); ("Option B", 0)] in
  let s := process_start None None in
  stop_poll_result (sample_world cp) = Some cp
  /\ total_voter_count cp = 0
  /\ BotManager._process_poll_results cp (total_voter_count cp) s
     = (Ok "No votes received", no_votes_recorded s).
Proof.
  intros cp s. split; [reflexivity|]. split; [reflexivity|].
  apply (no_votes_no_division (sample_world cp) 1 cp s); reflexivity.
Defined.

Lemma unique_maximum_wins_witness :
  let cp := closed_poll_of 3 [("Option A", 2); ("Option B", 1)] in
  fst (BotManager._process_poll_results cp 3 (process_start None None))
  = Ok "Option A".
Proof.
  intros cp.
  apply (unique_maximum_wins cp 3 (process_start None None) 0%nat
           {| text := "Option A"; voter_count := 2 |}).
  - lia.
  - reflexivity.
  - cbn. lia.
  - intros j o' Hj Hne. destruct j as [|[|j]]; cbn in Hj.
    + contradiction.
    + injection Hj as <-. cbn. lia.
    + discriminate.
Defined.

Lemma tie_names_every_maximum_witness :
  let cp := closed_poll_of 5 [("Option A", 2); ("Option B", 1); ("Option C", 2)] in
  fst (BotManager._process_poll_results cp 5 (process_start None None))
  = Ok "Tie between: Option A, Option C".
Proof.
  intros cp.
  apply (tie_names_every_maximum cp 5 (process_start None None) 2).
  - lia.
  - lia.
  - intros o Ho. cbn in Ho.
    destruct Ho as [<-|[<-|[<-|[]]]]; cbn; lia.
  - vm_compute. lia.
Defined.

(** ** Cleanup *)

Lemma deleted_app (a b : list (Z * Event)) : deleted (a ++ b) = deleted a ++ deleted b.
Proof. unfold deleted. apply omap_app. Qed.

Lemma deleted_delete_events (w : World) (chat_id t mid : Z) :
  deleted (delete_events w chat_id t mid) = [mid].
Proof. unfold delete_events, deleted. cbn. destruct (delete_message_ok w mid); reflexivity. Qed.

Lemma delete_message_run (w : World) (chat_id mid : Z) (s : State) :
  BotManager.delete_message w chat_id mid s
  = (Ok tt, with_trace (trace s ++ delete_events w chat_id (clock s) mid) s).
Proof.
  unfold BotManager.delete_message, delete_events. exec.
  destruct (delete_message_ok w mid);
    unfold with_trace; cbn [fst snd trace clock poll_payload db_votes db_polls];
    rewrite <- app_assoc; reflexivity.
Qed.

Lemma deletion_loop (w : World) (chat_id : Z) (ids : list Z) : forall s,
  for_each ids (fun mid =>
    pmid <- gets (fun s => poll_message_id (poll_payload s)) ;;
    when (negb (bool_decide (Some mid = pmid)))
         (BotManager.delete_message w chat_id mid)) s
  = (Ok tt, with_trace (trace s ++ loop_events w chat_id s ids) s).
Proof.
  induction ids as [|mid ids IH]; intros s.
  - cbn. unfold ret, loop_events. cbn. rewrite app_nil_r. destruct s; reflexivity.
  - cbn [for_each]. unfold bind at 1. unfold bind at 1. unfold gets at 1. unfold when.
    unfold loop_events. cbn [flat_map]. fold (loop_events w chat_id s ids).
    destruct (bool_decide (Some mid = poll_message_id (poll_payload s))); cbn [negb].
    + unfold ret. rewrite IH. reflexivity.
    + rewrite delete_message_run. rewrite IH.
      unfold loop_events, with_trace. cbn [trace clock poll_payload db_votes db_polls].
      rewrite <- app_assoc. reflexivity.
Qed.

Lemma deleted_loop_events (w : World) (chat_id : Z) (s : State) (ids : list Z) :
  deleted (loop_events w chat_id s ids)
  = filter (fun mid => Some mid <> poll_message_id (poll_payload s)) ids.
Proof.
  unfold loop_events. induction ids as [|mid ids IH]; [reflexivity|].
  cbn [flat_map]. rewrite deleted_app, IH, filter_cons.
  destruct (decide (Some mid = poll_message_id (poll_payload s))) as [He|He].
  - rewrite (bool_decide_eq_true_2 _ He). rewrite decide_False by tauto. reflexivity.
  - rewrite (bool_decide_eq_false_2 _ He). rewrite decide_True by exact He.
    rewrite deleted_delete_events. reflexivity.
Qed.

Lemma deleted_tail (w : World) (chat_id : Z) (reminder_message : option Message)
    (s : State) :
  deleted (trace (snd (BotManager.delete_reminder_and_save w chat_id reminder_message s)))
  = deleted (trace s) ++ reminder_id reminder_message.
Proof.
  unfold BotManager.delete_reminder_and_save.
  unfold bind at 1.
  assert (Hdel : exists s1,
            (match reminder_message with
             | Some m => BotManager.delete_message w chat_id (message_id m)
             | None => ret tt
             end) s = (Ok tt, s1)
            /\ deleted (trace s1) = deleted (trace s) ++ reminder_id reminder_message).
  { destruct reminder_message as [m|].
    - rewrite delete_message_run. eexists. split; [reflexivity|].
      cbn [trace with_trace]. rewrite deleted_app, deleted_delete_events. reflexivity.
    - exists s. split; [reflexivity|]. cbn. rewrite app_nil_r. reflexivity. }
  destruct Hdel as (s1 & -> & <-). exec.
  destruct (db_polls s1) as [c|]; [|reflexivity].
  unfold Mongo.insert_one. destruct (Mongo.has_id _ _ c); cbn; [reflexivity|].
  rewrite deleted_app. cbn. rewrite app_nil_r. reflexivity.
Qed.

(** The delete requests of the unified script's cleanup: one per tracked
    occurrence other than the poll message, then the reminder. *)
Lemma unified_cleanup_deletes (w : World) (chat_id : Z)
    (reminder_message : option Message) (s : State) :
  deleted (trace (snd (Unified._cleanup_and_save w chat_id reminder_message s)))
  = deleted (trace s)
    ++ filter (fun mid => Some mid <> poll_message_id (poll_payload s))
              (message_ids (poll_payload s))
    ++ reminder_id reminder_message.
Proof.
  unfold Unified._cleanup_and_save. unfold bind at 1. unfold gets at 1.
  unfold bind at 1. rewrite deletion_loop. rewrite deleted_tail.
  cbn [trace with_trace]. rewrite deleted_app, deleted_loop_events, app_assoc.
  reflexivity.
Qed.

(** The delete requests of the threading script's cleanup: the same, over
    the set of the tracked identifiers. *)
Lemma threading_cleanup_deletes (w : World) (chat_id : Z)
    (reminder_message : option Message) (s : State) :
  deleted (trace (snd (Threading._cleanup_and_save w chat_id reminder_message s)))
  = deleted (trace s)
    ++ filter (fun mid => Some mid <> poll_message_id (poll_payload s))
              (iter_set (message_ids (poll_payload s)))
    ++ reminder_id reminder_message.
Proof.
  unfold Threading._cleanup_and_save. unfold bind at 1. unfold gets at 1.
  unfold bind at 1. rewrite deletion_loop. rewrite deleted_tail.
  cbn [trace with_trace]. rewrite deleted_app, deleted_loop_events, app_assoc.
  reflexivity.
Qed.

Lemma filter_eq_absent (l : list Z) (x : Z) :
  x ∉ l -> filter (fun y => y = x) l = [].
Proof.
  induction l as [|y l IH]; intros Hx; [reflexivity|].
  rewrite filter_cons. apply not_elem_of_cons in Hx as [Hne Hx].
  rewrite decide_False by congruence. apply IH. exact Hx.
Qed.

Lemma nodup_occurs_once (l : list Z) (x : Z) :
  NoDup l -> x ∈ l -> length (filter (fun y => y = x) l) = 1%nat.
Proof.
  induction 1 as [|y l Hy Hnd IH]; intros Hx; [inversion Hx|].
  rewrite filter_cons. destruct (decide (y = x)) as [->|Hne].
  - rewrite filter_eq_absent by exact Hy. reflexivity.
  - apply IH. apply elem_of_cons in Hx as [->|Hx]; [contradiction | exact Hx].
Qed.

(** In the threading script every tracked identifier other than the poll
    message is deleted exactly once by the loop, and the poll message
    never, however often an identifier is tracked. *)
Lemma threading_loop_deletes_once (s : State) (mid : Z) :
  let loop := filter (fun mid => Some mid <> poll_message_id (poll_payload s))
                     (iter_set (message_ids (poll_payload s))) in
  (mid ∈ message_ids (poll_payload s) ->
   Some mid <> poll_message_id (poll_payload s) ->
   length (filter (fun x => x = mid) loop) = 1%nat)
  /\ (Some mid = poll_message_id (poll_payload s) -> mid ∉ loop).
Proof.
  intros loop. unfold iter_set in loop. split.
  - intros Hin Hne. apply nodup_occurs_once.
    + apply NoDup_filter. apply NoDup_elements.
    + apply list_elem_of_filter. split; [exact Hne|].
      apply elem_of_elements. apply elem_of_list_to_set. exact Hin.
  - intros Heq Hin. apply list_elem_of_filter in Hin as [Hne _]. contradiction.
Qed.

(** C2, at the input the specification names: with [5,5,7,7,9] tracked
    and poll message 9, the cleanup of the unified script, which iterates
    over the list itself, issues two delete requests for 5 and two for 7;
    the cleanup of the threading script, which iterates over the set of
    the list, issues one for 5 and one for 7.  Neither deletes 9.  The
    same happens on a manager filled through its own methods:
    [update_poll_data] for poll message 9, then [add_message_id] of 5, 5,
    7 and 7. *)
Theorem unified_cleanup_repeats_duplicates :
  let w := sample_world (closed_poll_of 0 []) in
  let s := with_payload
             (set_poll_message_id (Some 9) (set_message_ids [5; 5; 7; 7; 9] fresh_payload))
             (process_start None None) in
  let poll_msg :=
    {| message_id := 9;
       poll := Some {| id := "p"; options := []; total_voter_count := 0 |} |} in
  let filled :=
    snd ((BotManager.update_poll_data sample_cfg poll_msg (now_at_start w) "Daily Poll" ;;
          BotManager.add_message_id 5 ;; BotManager.add_message_id 5 ;;
          BotManager.add_message_id 7 ;; BotManager.add_message_id 7)
           (process_start None None)) in
  deleted (trace (snd (Unified._cleanup_and_save w 1 None s))) = [5; 5; 7; 7]
  /\ deleted (trace (snd (Threading._cleanup_and_save w 1 None s))) ≡ₚ [5; 7]
  /\ message_ids (poll_payload filled) = [9; 5; 5; 7; 7]
  /\ deleted (trace (snd (Unified._cleanup_and_save w 1 None filled))) = [5; 5; 7; 7].
Proof.
  intros w s poll_msg filled. split; [|split; [|split]].
  - rewrite unified_cleanup_deletes. reflexivity.
  - rewrite threading_cleanup_deletes. vm_compute. apply Permutation_swap.
  - reflexivity.
  - rewrite unified_cleanup_deletes. reflexivity.
Qed.

(** ** Startup *)

(** The unified script refuses to start when the reminder lead is not
    smaller than the poll duration (or when the token or the chat is
    missing): [main] raises [BotConfigError] after one ERROR record, and
    nothing else happens. *)
Lemma unified_main_rejects (cfg : Config) (w : World) (s : State) :
  POLL_DURATION_IN_MINS cfg <= REMINDER_MINS cfg ->
  exists msg text,
    Unified.main cfg w s
    = (Raise (BotConfigError msg),
       with_trace (trace s ++ [(clock s, Log ERROR text)]) s).
Proof.
  intros Hle. unfold Unified.main.
  destruct (truthy_str (TG_BOT_API_TOKEN cfg)).
  - destruct (truthy_int (TG_CHAT_ID cfg)).
    + assert (Hb : (POLL_DURATION_IN_MINS cfg <=? REMINDER_MINS cfg) = true)
        by (apply Z.leb_le; exact Hle).
      rewrite Hb. exec. eexists _, _. reflexivity.
    + exec. eexists _, _. reflexivity.
  - exec. eexists _, _. reflexivity.
Qed.

(** C3, threading script: [main] checks the token and the chat only.
    With a poll duration of 15 minutes and a reminder lead of 15 minutes
    it starts the lifecycle: the poll is created at once and the run ends
    with exit code 0, where the unified script raises its configuration
    error before anything is sent. *)
Theorem threading_main_starts_without_validation :
  let cfg := {| TG_BOT_API_TOKEN := Some "123:abc";
                TG_CHAT_ID := 1;
                POLL_DURATION_IN_MINS := 15;
                POLL_OPTIONS := ["Option A"; "Option B"];
                REMINDER_MINS := 15;
                DEFAULT_IMAGE_PATH := None;
                DEFAULT_IMAGE_CAPTION := "";
                ENABLE_IMAGE_SENDING := false |} in
  let w := sample_world (closed_poll_of 0 []) in
  let s := process_start None None in
  REMINDER_MINS cfg >= POLL_DURATION_IN_MINS cfg
  /\ fst (Threading.main cfg w s) = Exit 0
  /\ send_poll_times (trace (snd (Threading.main cfg w s))) = [0]
  /\ stop_poll_times (trace (snd (Threading.main cfg w s))) = [900]
  /\ fst (Unified.main cfg w s)
     = Raise (BotConfigError "Invalid poll duration configuration")
  /\ send_poll_times (trace (snd (Unified.main cfg w s))) = [].
Proof.
  intros cfg w s. split; [cbn; lia|]. vm_compute. repeat split.
Qed.

(** ** Relations every step of the scripts respects *)

Section Preserves.
Context {R : State -> State -> Prop} {allowed : PollPayload -> Prop}.
Context `{!Respects R allowed}.

Lemma preserves_ret {A} (a : A) : preserves R (ret a).
Proof. intros s. apply respects_refl. Qed.

Lemma preserves_raise {A} (e : exn) : preserves R (@raise State A e).
Proof. intros s. apply respects_refl. Qed.

Lemma preserves_exit {A} (c : Z) : preserves R (@os_exit State A c).
Proof. intros s. apply respects_refl. Qed.

Lemma preserves_lift {A} (o : outcome A) : preserves R (lift o).
Proof. intros s. apply respects_refl. Qed.

Lemma preserves_gets {A} (f : State -> A) : preserves R (gets f).
Proof. intros s. apply respects_refl. Qed.

Lemma preserves_bind {A B} (m : M State A) (k : A -> M State B) :
  preserves R m -> (forall a, preserves R (k a)) -> preserves R (bind m k).
Proof.
  intros Hm Hk s. unfold bind. specialize (Hm s).
  destruct (m s) as [[a|e|c] s1]; cbn in *; [|exact Hm|exact Hm].
  eapply respects_trans; [exact Hm | apply Hk].
Qed.

Lemma preserves_try {A} (m : M State A) (h : exn -> M State A) :
  preserves R m -> (forall e, preserves R (h e)) -> preserves R (try_except m h).
Proof.
  intros Hm Hh s. unfold try_except. specialize (Hm s).
  destruct (m s) as [[a|e|c] s1]; cbn in *; [exact Hm| |exact Hm].
  eapply respects_trans; [exact Hm | apply Hh].
Qed.

Lemma preserves_for_each {A} (l : list A) (body : A -> M State unit) :
  (forall a, preserves R (body a)) -> preserves R (for_each l body).
Proof.
  intros Hbody. induction l as [|a l IH]; cbn [for_each].
  - apply preserves_ret.
  - apply preserves_bind; [apply Hbody | intros _; exact IH].
Qed.

Lemma preserves_when (b : bool) (m : M State unit) :
  preserves R m -> preserves R (when b m).
Proof. intros Hm. destruct b; [exact Hm | apply preserves_ret]. Qed.

Lemma preserves_logger (l : Level) (msg : string) : preserves R (logger l msg).
Proof. intros s. apply respects_emit. discriminate. Qed.

Lemma preserves_sleep (d : Z) : preserves R (asyncio_sleep d).
Proof.
  unfold asyncio_sleep. apply preserves_bind.
  - intros s. apply respects_emit. discriminate.
  - intros _ s. apply (respects_modify (fun s => with_clock (clock s + Z.max 0 d) s));
      reflexivity.
Qed.

Lemma preserves_update (f : PollPayload -> PollPayload) :
  (forall p, status (f p) = status p) ->
  preserves R (bind (gets poll_payload) (fun p => store (f p))).
Proof. intros Hf s. apply (respects_update f s Hf). Qed.

Lemma preserves_store (p : PollPayload) : allowed p -> preserves R (store p).
Proof. intros Hp s. apply respects_store. exact Hp. Qed.

Lemma preserves_emit (e : Event) : (forall p, e <> Store p) -> preserves R (emit e).
Proof. intros He s. apply respects_emit. exact He. Qed.

Lemma preserves_request {A} (e : Event) (answer : option A) :
  (forall p, e <> Store p) -> preserves R (request e answer).
Proof.
  intros He. unfold request. apply preserves_bind.
  - apply preserves_emit. exact He.
  - intros _. destruct answer; [apply preserves_ret | apply preserves_raise].
Qed.

Lemma preserves_set_votes (c : option (list VoteEntry)) :
  preserves R (modify (with_db_votes c)).
Proof. intros s. apply (respects_modify (with_db_votes c)); reflexivity. Qed.

Lemma preserves_set_polls (c : option (list PollPayload)) :
  preserves R (modify (with_db_polls c)).
Proof. intros s. apply (respects_modify (with_db_polls c)); reflexivity. Qed.

End Preserves.

Ltac preserve :=
  repeat
    match goal with
    | |- preserves _ (store _) => fail 1
    | |- _ =>
      first
        [ apply preserves_ret | apply preserves_raise | apply preserves_exit
        | apply preserves_lift | apply preserves_gets | apply preserves_logger
        | apply preserves_sleep
        | apply preserves_request; discriminate
        | apply preserves_emit; discriminate
        | apply preserves_set_votes | apply preserves_set_polls
        | apply preserves_update; intros ?; reflexivity
        | apply preserves_bind; [|intros ?]
        | apply preserves_try; [|intros ?]
        | apply preserves_for_each; intros ?
        | apply preserves_when
        | match goal with
          | |- preserves _ (match ?x with _ => _ end) => destruct x
          end ]
    end.

Section Methods.
Context {R : State -> State -> Prop} {allowed : PollPayload -> Prop}.
Context `{!Respects R allowed}.

Lemma preserves_delete_message (w : World) (chat_id mid : Z) :
  preserves R (BotManager.delete_message w chat_id mid).
Proof.
  unfold BotManager.delete_message. preserve.
Qed.

Lemma preserves_add_message_id (mid : Z) :
  preserves R (BotManager.add_message_id mid).
Proof. unfold BotManager.add_message_id. preserve. Qed.

Lemma preserves_send_image (w : World) (chat_id : Z) (path : option string)
    (caption : string) :
  preserves R (BotManager._send_image w chat_id path caption).
Proof.
  unfold BotManager._send_image, BotManager.send_image. preserve.
Qed.

Lemma preserves_send_poll (cfg : Config) (w : World) (chat_id : Z) (q : string) :
  preserves R (BotManager._send_poll cfg w chat_id q).
Proof. unfold BotManager._send_poll. preserve. Qed.

Lemma preserves_send_reminder (cfg : Config) (w : World) (chat_id : Z) :
  preserves R (BotManager._send_reminder cfg w chat_id).
Proof.
  unfold BotManager._send_reminder. preserve.
Qed.

Lemma preserves_tally (total : Z) (opts : list PollOption) :
  forall rows mx, preserves R (BotManager.tally total opts rows mx).
Proof.
  induction opts as [|o opts IH]; intros rows mx; cbn [BotManager.tally].
  - preserve.
  - preserve; apply IH.
Qed.

Lemma preserves_process (cp : Poll) (total : Z) :
  preserves R (BotManager._process_poll_results cp total).
Proof.
  unfold BotManager._process_poll_results, BotManager.assign_option_votes.
  destruct (0 <? total); preserve; apply preserves_tally.
Qed.

Lemma preserves_conclusion (w : World) (chat_id total : Z) (winning : string) :
  preserves R (BotManager._send_conclusion w chat_id total winning).
Proof.
  unfold BotManager._send_conclusion. preserve.
Qed.

Lemma preserves_tail (w : World) (chat_id : Z) (reminder : option Message) :
  preserves R (BotManager.delete_reminder_and_save w chat_id reminder).
Proof.
  unfold BotManager.delete_reminder_and_save. preserve.
Qed.

Lemma preserves_unified_cleanup (w : World) (chat_id : Z) (reminder : option Message) :
  preserves R (Unified._cleanup_and_save w chat_id reminder).
Proof.
  unfold Unified._cleanup_and_save. preserve.
Qed.

Lemma preserves_threading_cleanup (w : World) (chat_id : Z) (reminder : option Message) :
  preserves R (Threading._cleanup_and_save w chat_id reminder).
Proof.
  unfold Threading._cleanup_and_save. preserve.
Qed.

Lemma preserves_unified_shutdown : preserves R Unified._shutdown.
Proof.
  unfold Unified._shutdown. preserve.
Qed.

Lemma preserves_threading_shutdown : preserves R Threading._shutdown.
Proof. unfold Threading._shutdown. preserve. Qed.

Lemma preserves_receive (cfg : Config) (u : Update) (now : string) :
  preserves R (BotManager.receive_poll_answer cfg u now).
Proof.
  unfold BotManager.receive_poll_answer. preserve.
Qed.

End Methods.

(** ** Three relations the scripts respect *)

Lemma statuses_snoc (tr : list (Z * Event)) (t : Z) (e : Event) :
  statuses (tr ++ [(t, e)])
  = statuses tr ++ match e with Store p => [status p] | _ => [] end.
Proof. unfold statuses. rewrite omap_app. cbn. destruct e; reflexivity. Qed.

Lemma statuses_emit (e : Event) (s : State) :
  (forall p, e <> Store p) -> statuses (trace (snd (emit e s))) = statuses (trace s).
Proof.
  intros He. cbn. rewrite statuses_snoc.
  destruct e; try apply app_nil_r. exfalso. eapply He. reflexivity.
Qed.

Lemma statuses_store (p : PollPayload) (s : State) :
  statuses (trace (snd (store p s))) = statuses (trace s) ++ [status p].
Proof. cbn. rewrite statuses_snoc. reflexivity. Qed.

#[global] Instance extends_respects : Respects extends (fun _ => True).
Proof.
  split.
  - intros s. exists []. rewrite app_nil_r. reflexivity.
  - intros s1 s2 s3 [l1 H1] [l2 H2]. exists (l1 ++ l2).
    rewrite H2, H1, app_assoc. reflexivity.
  - intros e s _. eexists. reflexivity.
  - intros f s Ht _. exists []. rewrite Ht, app_nil_r. reflexivity.
  - intros f s _. eexists. reflexivity.
  - intros p s _. eexists. reflexivity.
Qed.

Lemma still_active_store (p : PollPayload) (s : State) :
  status p = ACTIVE -> still_active s -> still_active (snd (store p s)).
Proof.
  intros Hp [Hall Hs]. split; [|exact Hp].
  rewrite statuses_store, Hp. apply Forall_app. split; [exact Hall|].
  constructor; [reflexivity | constructor].
Qed.

#[global] Instance stays_active_respects :
  Respects stays_active (fun p => status p = ACTIVE).
Proof.
  split.
  - intros s H. exact H.
  - intros s1 s2 s3 H1 H2 H. apply H2, H1, H.
  - intros e s He [Hall Hs]. split; [|exact Hs].
    rewrite statuses_emit by exact He. exact Hall.
  - intros f s Ht Hp [Hall Hs]. split; [rewrite Ht; exact Hall | rewrite Hp; exact Hs].
  - intros f s Hf Hact. apply still_active_store; [|exact Hact].
    rewrite Hf. apply Hact.
  - intros p s Hp Hact. apply still_active_store; assumption.
Qed.

Lemma forward_store_closed (p : PollPayload) (s : State) :
  status p = CLOSED -> active_then_closed s -> active_then_closed (snd (store p s)).
Proof.
  intros Hp (n & m & Hst & _). exists n, (S m). split; [|left; exact Hp].
  rewrite statuses_store, Hst, Hp, <- app_assoc.
  f_equal. symmetry. apply replicate_S_end.
Qed.

Lemma forward_store_same (p : PollPayload) (s : State) :
  status p = status (poll_payload s) ->
  active_then_closed s -> active_then_closed (snd (store p s)).
Proof.
  intros Hp Hs. pose proof Hs as (n & m & Hst & [Hc|[-> Ha]]).
  - apply forward_store_closed; [congruence | exact Hs].
  - exists (S n), 0%nat. split; [|right; split; [reflexivity | cbn; congruence]].
    rewrite statuses_store, Hst, Hp, Ha. cbn [replicate].
    rewrite !app_nil_r. symmetry. apply replicate_S_end.
Qed.

#[global] Instance stays_forward_respects :
  Respects stays_forward (fun p => status p = CLOSED).
Proof.
  split.
  - intros s H. exact H.
  - intros s1 s2 s3 H1 H2 H. apply H2, H1, H.
  - intros e s He (n & m & Hst & Hs). exists n, m. split; [|exact Hs].
    rewrite statuses_emit by exact He. exact Hst.
  - intros f s Ht Hp (n & m & Hst & Hs). exists n, m.
    rewrite Ht, Hp. split; assumption.
  - intros f s Hf Hs. apply forward_store_same; [apply Hf | exact Hs].
  - intros p s Hp Hs. apply forward_store_closed; assumption.
Qed.

Lemma still_active_forward (s : State) : still_active s -> active_then_closed s.
Proof.
  intros [Hall Hs]. exists (length (statuses (trace s))), 0%nat.
  split; [|right; split; [reflexivity | exact Hs]].
  cbn [replicate]. rewrite app_nil_r.
  induction Hall as [|st l -> _ IH]; [reflexivity|]. cbn. f_equal. exact IH.
Qed.

Lemma forward_replicate (n m : nat) :
  forward (replicate n ACTIVE ++ replicate m CLOSED) = true.
Proof.
  induction n as [|n IH]; cbn [replicate app].
  - induction m as [|m IHm]; [reflexivity|].
    cbn [replicate]. destruct m; [reflexivity|]. cbn [replicate] in *.
    cbn [forward status_step andb]. exact IHm.
  - destruct (replicate n ACTIVE ++ replicate m CLOSED) eqn:E; [reflexivity|].
    cbn [forward status_step andb]. exact IH.
Qed.

(** ** The lifecycle respects them *)

Section Lifecycle.
Context {R : State -> State -> Prop} {allowed : PollPayload -> Prop}.
Context `{!Respects R allowed}.

Section AfterClose.
Hypothesis closed_allowed : forall p, status p = CLOSED -> allowed p.

Lemma preserves_close (w : World) (chat_id : Z) :
  preserves R (BotManager._close_and_process_poll w chat_id).
Proof.
  unfold BotManager._close_and_process_poll. preserve.
  - apply preserves_store. apply closed_allowed. reflexivity.
  - apply preserves_process.
Qed.

Lemma preserves_unified_lifecycle (cfg : Config) (w : World) (chat_id : Z) :
  preserves R (Unified._run_poll_lifecycle cfg w chat_id).
Proof.
  unfold Unified._run_poll_lifecycle. preserve.
  - apply preserves_store. apply closed_allowed. reflexivity.
  - apply preserves_process.
Qed.

Lemma preserves_threading_lifecycle (cfg : Config) (w : World) (chat_id : Z) :
  preserves R (Threading._run_poll_lifecycle cfg w chat_id).
Proof.
  unfold Threading._run_poll_lifecycle. preserve.
  - apply preserves_store. apply closed_allowed. reflexivity.
  - apply preserves_process.
Qed.

End AfterClose.

Section BeforeClose.
Hypothesis active_allowed : forall p, status p = ACTIVE -> allowed p.

Lemma preserves_update_poll_data (cfg : Config) (poll_msg : Message)
    (current_time : Timestamp) (question : string) :
  preserves R (BotManager.update_poll_data cfg poll_msg current_time question).
Proof.
  unfold BotManager.update_poll_data. preserve.
  apply preserves_store. apply active_allowed. reflexivity.
Qed.

Lemma preserves_init : preserves R Unified.__init__ /\ preserves R Threading.__init__.
Proof.
  split; apply preserves_store; apply active_allowed; reflexivity.
Qed.

End BeforeClose.

End Lifecycle.

(** ** The status only moves forward *)

Lemma otc_forward {A} (m : M State A) :
  preserves stays_forward m -> opens_then_closes m.
Proof. intros Hm s Hs. apply Hm. apply still_active_forward. exact Hs. Qed.

Lemma otc_active {A} (m : M State A) :
  preserves stays_active m -> opens_then_closes m.
Proof. intros Hm s Hs. apply still_active_forward. apply Hm. exact Hs. Qed.

Lemma otc_bind {A B} (m : M State A) (k : A -> M State B) :
  preserves stays_active m -> (forall a, opens_then_closes (k a)) ->
  opens_then_closes (bind m k).
Proof.
  intros Hm Hk s Hs. unfold bind. specialize (Hm s Hs).
  destruct (m s) as [[a|e|c] s1]; cbn in *.
  - apply Hk. exact Hm.
  - apply still_active_forward. exact Hm.
  - apply still_active_forward. exact Hm.
Qed.

Lemma otc_then {A B} (m : M State A) (k : A -> M State B) :
  opens_then_closes m -> (forall a, preserves stays_forward (k a)) ->
  opens_then_closes (bind m k).
Proof.
  intros Hm Hk s Hs. unfold bind. specialize (Hm s Hs).
  destruct (m s) as [[a|e|c] s1]; cbn in *; [|exact Hm|exact Hm].
  apply Hk. exact Hm.
Qed.

Lemma otc_try {A} (m : M State A) (h : exn -> M State A) :
  opens_then_closes m -> (forall e, preserves stays_forward (h e)) ->
  opens_then_closes (try_except m h).
Proof.
  intros Hm Hh s Hs. unfold try_except. specialize (Hm s Hs).
  destruct (m s) as [[a|e|c] s1]; cbn in *; [exact Hm| |exact Hm].
  apply Hh. exact Hm.
Qed.

Lemma otc_unified_post_poll (cfg : Config) (w : World) (path : option string)
    (caption : string) :
  opens_then_closes (Unified.post_poll cfg w path caption).
Proof.
  unfold Unified.post_poll. apply otc_try.
  - apply otc_bind; [preserve|]. intros _.
    apply otc_bind; [apply preserves_send_poll|]. intros poll_msg.
    apply otc_bind; [apply preserves_update_poll_data; auto|]. intros _.
    apply otc_bind; [preserve|]. intros _.
    apply otc_bind; [apply preserves_send_image|]. intros _.
    apply otc_forward. apply preserves_unified_lifecycle. auto.
  - intros e. preserve.
Qed.

Lemma otc_threading_post_poll (cfg : Config) (w : World) (path : option string)
    (caption : string) :
  opens_then_closes (Threading.post_poll cfg w path caption).
Proof.
  unfold Threading.post_poll. apply otc_try.
  - apply otc_bind; [preserve|]. intros _.
    apply otc_bind; [apply preserves_send_poll|]. intros poll_msg.
    apply otc_bind; [preserve|]. intros pl.
    do 7 (apply otc_bind; [preserve|]; intros _).
    apply otc_bind.
    { destruct (truthy_str path); [|preserve].
      apply preserves_bind; [apply preserves_send_image | intros _; preserve]. }
    intros _. apply otc_forward. apply preserves_threading_lifecycle. auto.
  - intros e. preserve.
Qed.

Lemma otc_unified_main (cfg : Config) (w : World) :
  opens_then_closes (Unified.main cfg w).
Proof.
  unfold Unified.main.
  do 7 (apply otc_bind; [preserve|]; intros _).
  apply otc_then; [|intros _; preserve].
  apply otc_try; [|intros e; destruct e; preserve].
  unfold Unified.run_bot_async.
  apply otc_bind; [apply preserves_init; auto|]. intros _.
  destruct (_ && _); apply otc_unified_post_poll.
Qed.

Lemma otc_threading_main (cfg : Config) (w : World) :
  opens_then_closes (Threading.main cfg w).
Proof.
  unfold Threading.main.
  destruct (negb _); [apply otc_active; preserve|].
  destruct (negb _); [apply otc_active; preserve|].
  apply otc_bind; [preserve|]. intros _.
  apply otc_bind; [apply preserves_init; auto|]. intros _.
  destruct (_ && _); apply otc_threading_post_poll.
Qed.

Lemma still_active_start (votes : option (list VoteEntry))
    (polls : option (list PollPayload)) :
  still_active (process_start votes polls).
Proof. split; [constructor | reflexivity]. Qed.

Lemma forward_never_reopens (n m i j : nat) (a b : PollStatus) :
  (i < j)%nat ->
  (replicate n ACTIVE ++ replicate m CLOSED) !! i = Some a ->
  (replicate n ACTIVE ++ replicate m CLOSED) !! j = Some b ->
  a <> ACTIVE -> b <> ACTIVE.
Proof.
  intros Hij Hi Hj Ha.
  destruct (decide (i < n)%nat) as [Hin|Hin].
  - rewrite lookup_app_l in Hi by (rewrite length_replicate; exact Hin).
    apply lookup_replicate in Hi as [-> _]. contradiction.
  - rewrite lookup_app_r in Hj by (rewrite length_replicate; lia).
    apply lookup_replicate in Hj as [-> _]. discriminate.
Qed.

(** C9: over a whole run of either script, from the start of the process
    and whatever the outside answers, the values [status] takes, one per
    assignment into the payload, only move forward: consecutive values are
    one [status_step] apart, and once a value is not [ACTIVE] no later
    value is [ACTIVE].  The only final value the scripts ever store is
    [CLOSED]. *)
Theorem status_only_moves_forward (cfg : Config) (w : World)
    (votes : option (list VoteEntry)) (polls : option (list PollPayload)) :
  let unified :=
    statuses (trace (snd (Unified.main cfg w (process_start votes polls)))) in
  let threading :=
    statuses (trace (snd (Threading.main cfg w (process_start votes polls)))) in
  forward unified = true
  /\ forward threading = true
  /\ (forall (i j : nat) a b, (i < j)%nat -> unified !! i = Some a ->
        unified !! j = Some b -> a <> ACTIVE -> b <> ACTIVE)
  /\ (forall (i j : nat) a b, (i < j)%nat -> threading !! i = Some a ->
        threading !! j = Some b -> a <> ACTIVE -> b <> ACTIVE).
Proof.
  intros unified threading.
  destruct (otc_unified_main cfg w _ (still_active_start votes polls))
    as (n1 & m1 & H1 & _).
  destruct (otc_threading_main cfg w _ (still_active_start votes polls))
    as (n2 & m2 & H2 & _).
  fold unified in H1. fold threading in H2. rewrite H1, H2.
  split; [apply forward_replicate|]. split; [apply forward_replicate|].
  split; intros i j a b; apply forward_never_reopens.
Qed.

Lemma status_only_moves_forward_witness :
  let w := sample_world (closed_poll_of 3 [("Option A", 2); ("Option B", 1)]) in
  statuses (trace (snd (Unified.main sample_cfg w (process_start None None))))
  = [ACTIVE; ACTIVE; CLOSED; CLOSED]
  /\ forward (statuses (trace (snd (Unified.main sample_cfg w (process_start None None)))))
     = true.
Proof.
  intros w. split; [vm_compute; reflexivity|].
  apply (status_only_moves_forward sample_cfg w None None).
Defined.

(** [update_poll_data] itself writes [ACTIVE] whatever the payload holds;
    the order above rests on the scripts calling it once, before the
    close. *)
Lemma update_poll_data_writes_active (cfg : Config) (m : Message) (pl : Poll)
    (now : Timestamp) (q : string) (s : State) :
  poll m = Some pl ->
  status (poll_payload (snd (BotManager.update_poll_data cfg m now q s))) = ACTIVE.
Proof.
  intros Hm. unfold BotManager.update_poll_data. exec. rewrite Hm. reflexivity.
Qed.

(** The vote handler and the listener never touch the status. *)
Lemma listener_respects (cfg : Config) (updates : list (Update * string)) :
  preserves stays_active (listener cfg updates)
  /\ preserves stays_forward (listener cfg updates).
Proof.
  unfold listener. split; apply preserves_for_each; intros un; apply preserves_receive.
Qed.

(** ** The two waits *)

Lemma extends_bind_prefix {A B} (m : M State A) (k : A -> M State B) (s : State)
    (pre : list (Z * Event)) :
  (exists l, trace (snd (m s)) = trace s ++ pre ++ l) ->
  (forall a, preserves extends (k a)) ->
  exists l, trace (snd (bind m k s)) = trace s ++ pre ++ l.
Proof.
  intros [l Hl] Hk. unfold bind.
  destruct (m s) as [[a|e|c] s1]; cbn [snd] in *; [|exists l; exact Hl..].
  destruct (Hk a s1) as [l' Hl']. exists (l ++ l').
  rewrite Hl', Hl, <- !app_assoc. reflexivity.
Qed.

Lemma extends_try_prefix {A} (m : M State A) (h : exn -> M State A) (s : State)
    (pre : list (Z * Event)) :
  (exists l, trace (snd (m s)) = trace s ++ pre ++ l) ->
  (forall e, preserves extends (h e)) ->
  exists l, trace (snd (try_except m h s)) = trace s ++ pre ++ l.
Proof.
  intros [l Hl] Hh. unfold try_except.
  destruct (m s) as [[a|e|c] s1]; cbn [snd] in *; [exists l; exact Hl| |exists l; exact Hl].
  destruct (Hh e s1) as [l' Hl']. exists (l ++ l').
  rewrite Hl', Hl, <- !app_assoc. reflexivity.
Qed.

(** The close starts with the close request. *)
Lemma close_starts_with_stop_poll (w : World) (chat_id : Z) (s : State) :
  exists l,
    trace (snd (BotManager._close_and_process_poll w chat_id s))
    = trace s ++ [(clock s, StopPoll chat_id (poll_message_id (poll_payload s)))] ++ l.
Proof.
  unfold BotManager._close_and_process_poll.
  unfold bind at 1. unfold gets at 1.
  apply extends_bind_prefix.
  - exists []. unfold request. exec.
    destruct (stop_poll_result w); rewrite app_nil_r; reflexivity.
  - intros cp. preserve.
    + apply preserves_store. exact I.
    + apply preserves_process.
Qed.

Section Waits.
Variable cfg : Config.
Variable w : World.
Variable chat_id : Z.

Lemma waits_then_trace (k : Message -> M State unit) (s : State) :
  0 <= REMINDER_MINS cfg ->
  REMINDER_MINS cfg < POLL_DURATION_IN_MINS cfg ->
  (forall m, preserves extends (k m)) ->
  (exists l, trace (snd (waits_then cfg w chat_id k s)) = trace s ++ until_reminder cfg chat_id (clock s) ++ l)
  /\ (forall m, send_reminder_result w = Some m ->
      exists l, trace (snd (waits_then cfg w chat_id k s))
                = trace s ++ (until_reminder cfg chat_id (clock s)
                              ++ until_close cfg chat_id (clock s) (poll_message_id (poll_payload s)))
                          ++ l).
Proof.
  intros Hlead Hdur Hk.
  set (a := (POLL_DURATION_IN_MINS cfg - REMINDER_MINS cfg) * 60).
  set (b := REMINDER_MINS cfg * 60).
  assert (Ha : Z.max 0 a = a) by (apply Z.max_r; unfold a; lia).
  assert (Hb : Z.max 0 b = b) by (apply Z.max_r; unfold b; lia).
  assert (Hab : clock s + a + b = clock s + POLL_DURATION_IN_MINS cfg * 60)
    by (unfold a, b; lia).
  unfold waits_then, until_reminder, until_close. fold a b.
  unfold bind at 1. unfold asyncio_sleep at 1. exec. cbn [fst snd].
  unfold BotManager._send_reminder, request. exec.
  cbn [fst snd trace clock poll_payload with_trace with_clock].
  rewrite Ha.
  destruct (send_reminder_result w) as [m|] eqn:Hrem.
  - cbn [fst snd trace clock poll_payload with_trace with_clock].
    rewrite Hb.
    match goal with
    | |- context [BotManager._close_and_process_poll w chat_id ?s2] =>
        destruct (close_starts_with_stop_poll w chat_id s2) as [l Hl];
        pose proof (Hk m) as Hkm;
        destruct (BotManager._close_and_process_poll w chat_id s2) as [[cp|e|c] s3]
    end;
      cbn [snd trace clock poll_payload with_trace with_clock] in Hl |- *.
    + destruct (Hkm s3) as [l' Hl']. rewrite Hl', Hl, Hab.
      split; [|intros m' _]; eexists; rewrite <- !app_assoc; cbn [app]; reflexivity.
    + rewrite Hl, Hab.
      split; [|intros m' _]; eexists; rewrite <- !app_assoc; cbn [app]; reflexivity.
    + rewrite Hl, Hab.
      split; [|intros m' _]; eexists; rewrite <- !app_assoc; cbn [app]; reflexivity.
  - cbn [fst snd trace clock poll_payload with_trace with_clock].
    split; [|intros m' Hm'; discriminate].
    exists []. rewrite <- !app_assoc. reflexivity.
Qed.

End Waits.

(** C8, as the scripts have it: with [poll_duration > reminder_lead >= 0],
    in both scripts, a lifecycle entered at [t0] first sleeps
    [(poll_duration - reminder_lead) * 60] seconds and then issues the
    reminder at [t0 + (poll_duration - reminder_lead) * 60]; when the
    reminder request succeeds it sleeps [reminder_lead * 60] seconds and
    issues the close request, for the recorded poll message, at
    [t0 + poll_duration * 60].  Time is the time spent sleeping. *)
Theorem waits_match_configuration (cfg : Config) (w : World) (chat_id : Z) (s : State)
    (run : M State unit) :
  0 <= REMINDER_MINS cfg ->
  REMINDER_MINS cfg < POLL_DURATION_IN_MINS cfg ->
  run = Unified._run_poll_lifecycle cfg w chat_id
  \/ run = Threading._run_poll_lifecycle cfg w chat_id ->
  (exists l, trace (snd (run s))
             = trace s ++ until_reminder cfg chat_id (clock s) ++ l)
  /\ (forall m, send_reminder_result w = Some m ->
      exists l, trace (snd (run s))
                = trace s ++ (until_reminder cfg chat_id (clock s)
                              ++ until_close cfg chat_id (clock s)
                                   (poll_message_id (poll_payload s)))
                          ++ l).
Proof.
  intros Hlead Hdur [-> | ->].
  - change (Unified._run_poll_lifecycle cfg w chat_id)
      with (try_except
              (waits_then cfg w chat_id
                 (fun r => Unified._cleanup_and_save w chat_id (Some r) ;;
                           Unified._shutdown))
              (fun e => logger ERROR "Error in poll lifecycle: {e}" ;;
                        Unified._shutdown)).
    destruct (waits_then_trace cfg w chat_id
                (fun r => Unified._cleanup_and_save w chat_id (Some r) ;;
                          Unified._shutdown) s Hlead Hdur) as [H1 H2].
    { intros m. preserve. }
    split; [|intros m Hm; specialize (H2 m Hm)];
      apply extends_try_prefix; try assumption; intros e; preserve.
  - change (Threading._run_poll_lifecycle cfg w chat_id)
      with (waits_then cfg w chat_id
              (fun r => Threading._cleanup_and_save w chat_id (Some r) ;;
                        Threading._shutdown)).
    apply waits_then_trace; [assumption..|]. intros m. preserve.
Qed.

Lemma waits_match_configuration_witness :
  let w := sample_world (closed_poll_of 0 []) in
  let s := process_start None None in
  0 <= REMINDER_MINS sample_cfg
  /\ REMINDER_MINS sample_cfg < POLL_DURATION_IN_MINS sample_cfg
  /\ exists l,
       trace (snd (Unified._run_poll_lifecycle sample_cfg w 1 s))
       = trace s ++ ([(0, Sleep 2700); (2700, SendMessage 1 (ReminderText 15))]
                     ++ [(2700, Log INFO "Sent {REMINDER_MINS}-minute reminder");
                         (2700, Sleep 900);
                         (3600, StopPoll 1 None)])
                 ++ l.
Proof.
  intros w s. split; [cbn; lia|]. split; [cbn; lia|].
  refine (proj2 (waits_match_configuration sample_cfg w 1 s
                   (Unified._run_poll_lifecycle sample_cfg w 1) _ _ _)
                (plain_message 11) eq_refl);
    [cbn; lia | cbn; lia | left; reflexivity].
Defined.

(** The claim C8 as the specification words it, for every configuration
    with [poll_duration > reminder_lead], fails when the lead is negative:
    with a duration of 60 and a lead of -5 the first sleep takes 65
    minutes, the second returns at once, and the close request goes out
    3900 seconds after the start, not 3600. *)
Lemma negative_lead_closes_late :
  let cfg := {| TG_BOT_API_TOKEN := Some "123:abc";
                TG_CHAT_ID := 1;
                POLL_DURATION_IN_MINS := 60;
                POLL_OPTIONS := ["Option A"; "Option B"];
                REMINDER_MINS := -5;
                DEFAULT_IMAGE_PATH := None;
                DEFAULT_IMAGE_CAPTION := "";
                ENABLE_IMAGE_SENDING := false |} in
  let w := sample_world (closed_poll_of 0 []) in
  let s := process_start None None in
  REMINDER_MINS cfg < POLL_DURATION_IN_MINS cfg
  /\ fst (Unified.main cfg w s) = Ok tt
  /\ stop_poll_times (trace (snd (Unified.main cfg w s))) = [3900]
  /\ stop_poll_times (trace (snd (Threading.main cfg w s))) = [3900]
  /\ ~ (exists l,
          trace (snd (Unified._run_poll_lifecycle cfg w 1 s))
          = trace s ++ (until_reminder cfg 1 (clock s)
                        ++ until_close cfg 1 (clock s) (poll_message_id (poll_payload s)))
                    ++ l).
Proof.
  intros cfg w s. split; [cbn; lia|].
  split; [vm_compute; reflexivity|]. split; [vm_compute; reflexivity|].
  split; [vm_compute; reflexivity|].
  intros [l H]. vm_compute in H. discriminate H.
Qed.

(** * Further properties of the vote recorder *)

(** ** The composite key *)

(** No character of [s] is a minus sign. *)
Fixpoint no_dash (s : string) : bool :=
  match s with
  | EmptyString => true
  | String a s' => negb (Ascii.eqb a "-") && no_dash s'
  end.

Lemma no_dash_uint (d : Decimal.uint) : no_dash (NilEmpty.string_of_uint d) = true.
Proof. induction d; cbn; auto. Qed.

Lemma no_dash_nzuint (d : Decimal.uint) : no_dash (NilZero.string_of_uint d) = true.
Proof. destruct d; try reflexivity; apply (no_dash_uint (_ d)). Qed.

(** Two dash-free prefixes followed by a dash split a string the same
    way. *)
Lemma dash_split_unique (a : string) : forall b p q,
  no_dash a = true -> no_dash b = true ->
  a +:+ "-" +:+ p = b +:+ "-" +:+ q -> a = b /\ p = q.
Proof.
  induction a as [|c a IH]; intros [|c' b] p q Ha Hb H; simpl in H.
  - injection H as H. auto.
  - injection H as Hc _. subst c'. discriminate Hb.
  - injection H as Hc _. subst c. discriminate Ha.
  - injection H as Hc H. subst c'. simpl in Ha, Hb.
    apply andb_true_iff in Ha as [_ Ha]. apply andb_true_iff in Hb as [_ Hb].
    destruct (IH b p q Ha Hb H) as [Hab Hpq]. subst. auto.
Qed.

Lemma str_of_int_inj (a b : Z) : str_of_int a = str_of_int b -> a = b.
Proof.
  unfold str_of_int. intros H. apply DecimalZ.to_int_inj.
  assert (Hnn : forall z, Z.to_int z <> Decimal.Pos Decimal.Nil
                          /\ Z.to_int z <> Decimal.Neg Decimal.Nil).
  { intros [|p|p]; cbn; split; try discriminate;
      intros [= E]; exact (DecimalPos.Unsigned.to_uint_nonnil p E). }
  destruct (Hnn a) as [Ha1 Ha2]. destruct (Hnn b) as [Hb1 Hb2].
  pose proof (NilZero.isi _ Ha1 Ha2) as Ia. pose proof (NilZero.isi _ Hb1 Hb2) as Ib.
  rewrite H in Ia. congruence.
Qed.

(** The key [f"{user_id}-{poll_id}"] determines the voter and the poll. *)
Lemma vote_key_injective (a b : Z) (p q : string) :
  str_of_int a +:+ "-" +:+ p = str_of_int b +:+ "-" +:+ q -> a = b /\ p = q.
Proof.
  intros H.
  assert (Hsplit : str_of_int a = str_of_int b /\ p = q).
  { unfold str_of_int in *.
    destruct (Z.to_int a) as [da|da], (Z.to_int b) as [db|db];
      cbn [NilZero.string_of_int] in *.
    - apply dash_split_unique; auto using no_dash_nzuint.
    - exfalso. pose proof (no_dash_nzuint da) as Hd.
      destruct (NilZero.string_of_uint da) as [|c r] eqn:E.
      + destruct da; discriminate E.
      + cbn in H, Hd. injection H as -> _. discriminate Hd.
    - exfalso. pose proof (no_dash_nzuint db) as Hd.
      destruct (NilZero.string_of_uint db) as [|c r] eqn:E.
      + destruct db; discriminate E.
      + cbn in H, Hd. injection H as <- _. discriminate Hd.
    - cbn in H. injection H as H.
      destruct (dash_split_unique _ _ _ _ (no_dash_nzuint da) (no_dash_nzuint db) H)
        as [-> ->]. auto. }
  destruct Hsplit as [Hs ->]. split; [apply str_of_int_inj; exact Hs | reflexivity].
Qed.

(** X1: the documents of two votes carry the same [_id] only when the
    votes come from the same voter on the same poll. *)
Theorem vote_id_determines_voter_and_poll (u1 u2 : Update) (i1 i2 : Z)
    (now1 now2 : string) (s1 s2 : State) :
  vote_id (entry_of u1 i1 now1 s1) = vote_id (entry_of u2 i2 now2 s2) ->
  user_id_of (user (poll_answer u1)) = user_id_of (user (poll_answer u2))
  /\ poll_id (poll_answer u1) = poll_id (poll_answer u2).
Proof. unfold entry_of. cbn [vote_id]. apply vote_key_injective. Qed.

Lemma vote_id_determines_voter_and_poll_witness :
  user_id_of (user (poll_answer (vote_update 7 "p-1" [0])))
  = user_id_of (user (poll_answer (vote_update 7 "p-1" [1])))
  /\ poll_id (poll_answer (vote_update 7 "p-1" [0]))
     = poll_id (poll_answer (vote_update 7 "p-1" [1])).
Proof.
  apply (vote_id_determines_voter_and_poll (vote_update 7 "p-1" [0])
           (vote_update 7 "p-1" [1]) 0 1 "t1" "t2"
           (process_start None None) (process_start None None)).
  reflexivity.
Defined.

(** ** Python indexing *)

Lemma index_in_range {A} (l : list A) (i : Z) :
  - Z.of_nat (length l) <= i < Z.of_nat (length l) -> exists x, index l i = Ok x.
Proof.
  intros Hi. unfold index.
  set (j := if i <? 0 then Z.of_nat (length l) + i else i).
  assert (Hj : 0 <= j < Z.of_nat (length l)).
  { unfold j. destruct (Z.ltb_spec i 0); lia. }
  assert (Hb : (0 <=? j) && (j <? Z.of_nat (length l)) = true).
  { apply andb_true_iff. split; [apply Z.leb_le | apply Z.ltb_lt]; lia. }
  rewrite Hb.
  destruct (l !! Z.to_nat j) as [x|] eqn:Hx; [eauto|].
  apply lookup_ge_None in Hx. lia.
Qed.

Lemma index_out_of_range {A} (l : list A) (i : Z) :
  ~ (- Z.of_nat (length l) <= i < Z.of_nat (length l)) -> index l i = Raise IndexError.
Proof.
  intros Hi. unfold index.
  set (j := if i <? 0 then Z.of_nat (length l) + i else i).
  assert (Hb : (0 <=? j) && (j <? Z.of_nat (length l)) = false).
  { apply andb_false_iff. unfold j.
    destruct (Z.ltb_spec i 0).
    - left. apply Z.leb_gt. lia.
    - right. apply Z.ltb_ge. lia. }
  rewrite Hb. reflexivity.
Qed.

(** ** One update, and any number of them *)

Section VoteRecorderMore.
Variable cfg : Config.

(** What one call of the handler may change: nothing but the trace and,
    by one appended document with a new [_id], the vote collection. *)
Lemma receive_step (u : Update) (now : string) (s : State) :
  let s' := snd (BotManager.receive_poll_answer cfg u now s) in
  poll_payload s' = poll_payload s
  /\ db_polls s' = db_polls s
  /\ clock s' = clock s
  /\ (db_votes s' = db_votes s
      \/ exists c e, db_votes s = Some c
                     /\ Mongo.has_id vote_id (vote_id e) c = false
                     /\ db_votes s' = Some (c ++ [e])).
Proof.
  unfold BotManager.receive_poll_answer, try_except, bind, lift, gets, modify,
    logger, emit, ret, raise.
  destruct (index_cases (option_ids (poll_answer u)) 0) as [Hi|[i Hi]];
    rewrite Hi; cbn; [auto 6|].
  destruct (index_cases (POLL_OPTIONS cfg) i) as [Ho|[o Ho]];
    rewrite Ho; cbn; [auto 6|].
  destruct (db_votes s) as [c|] eqn:Hc; cbn; [|rewrite Hc; auto 6].
  unfold Mongo.insert_one.
  destruct (Mongo.has_id _ _ c) eqn:Hdup; cbn; rewrite ?Hc; [auto 6|].
  repeat split; try reflexivity. right. eexists c, _.
  split; [reflexivity|]. split; [exact Hdup | reflexivity].
Qed.

Lemma nodup_ids_app (c : list VoteEntry) (e : VoteEntry) :
  Mongo.has_id vote_id (vote_id e) c = false ->
  NoDup (map vote_id c) -> NoDup (map vote_id (c ++ [e])).
Proof.
  intros Hnew Hnd. rewrite map_app. cbn [map].
  apply NoDup_app. split; [exact Hnd|]. split; [|apply NoDup_singleton].
  intros k Hk Hke. apply list_elem_of_singleton in Hke. subst k.
  apply list_elem_of_In, in_map_iff in Hk as (d & Hd & Hin).
  unfold Mongo.has_id in Hnew.
  assert (Hex : existsb (fun d => bool_decide (vote_id d = vote_id e)) c = true).
  { apply existsb_exists. exists d. split; [exact Hin|].
    apply bool_decide_eq_true_2. exact Hd. }
  congruence.
Qed.

(** X2: whatever updates arrive, the listener never raises, leaves the
    poll payload, the poll collection and the clock alone, and only ever
    appends to the vote collection: the documents already stored stay, in
    place and unchanged, and identifiers that were unique stay unique.
    With the database disabled nothing is stored. *)
Theorem listener_only_appends (updates : list (Update * string)) : forall (s : State),
  let s' := snd (listener cfg updates s) in
  fst (listener cfg updates s) = Ok tt
  /\ poll_payload s' = poll_payload s
  /\ db_polls s' = db_polls s
  /\ clock s' = clock s
  /\ match db_votes s with
     | None => db_votes s' = None
     | Some c =>
         exists added, db_votes s' = Some (c ++ added)
                       /\ (NoDup (map vote_id c) -> NoDup (map vote_id (c ++ added)))
     end.
Proof.
  induction updates as [|[u now] updates IH]; intros s.
  - cbn. repeat split. destruct (db_votes s) as [c|]; [|reflexivity].
    exists []. rewrite app_nil_r. auto.
  - unfold listener in *. cbn [for_each fst snd]. unfold bind.
    pose proof (receive_returns cfg u now s) as Hret.
    pose proof (receive_step u now s) as (Hp & Hq & Hc & Hv).
    destruct (BotManager.receive_poll_answer cfg u now s) as [o s1].
    cbn [fst snd] in *. subst o.
    destruct (IH s1) as (Hok & Hp' & Hq' & Hc' & Hv').
    split; [exact Hok|]. split; [congruence|]. split; [congruence|].
    split; [congruence|].
    destruct Hv as [Hsame | (c & e & Hs & Hnew & Hs1)].
    + rewrite Hsame in Hv'. exact Hv'.
    + rewrite Hs. rewrite Hs1 in Hv'. destruct Hv' as (added & Hfin & Hnd).
      exists (e :: added). rewrite <- app_assoc in Hfin. cbn [app] in Hfin.
      split; [exact Hfin|]. intros Hc0.
      replace (c ++ e :: added) with ((c ++ [e]) ++ added)
        by (rewrite <- app_assoc; reflexivity).
      apply Hnd. apply nodup_ids_app; assumption.
Qed.

End VoteRecorderMore.

Lemma listener_only_appends_witness :
  let s := process_start (Some []) None in
  let updates := [(vote_update 7 "p" [0], "t1"); (vote_update 7 "p" [1], "t2");
                  (vote_update 8 "p" [5], "t3"); (vote_update 9 "p" [1], "t4")] in
  fst (listener sample_cfg updates s) = Ok tt
  /\ map vote_id (default [] (db_votes (snd (listener sample_cfg updates s))))
     = ["7-p"; "9-p"].
Proof.
  intros s updates. split; [|vm_compute; reflexivity].
  apply (listener_only_appends sample_cfg updates s).
Defined.

Section VoteRecorderRange.
Variable cfg : Config.

(** X3: the bounds check on the selected option is Python indexing into
    the option list.  A vote whose first selected option is [i], arriving
    with the database enabled and its [_id] not yet stored, is stored,
    with [selected_option = i], exactly when [-len <= i < len]: indices
    [-len .. -1] pass like [0 .. len-1].  Outside that range nothing is
    stored. *)
Theorem vote_stored_iff_python_range (u : Update) (now : string) (s : State)
    (i : Z) (rest : list Z) (c : list VoteEntry) :
  option_ids (poll_answer u) = i :: rest ->
  db_votes s = Some c ->
  Mongo.has_id vote_id (vote_id (entry_of u i now s)) c = false ->
  let n := Z.of_nat (length (POLL_OPTIONS cfg)) in
  let s' := snd (BotManager.receive_poll_answer cfg u now s) in
  (- n <= i < n -> db_votes s' = Some (c ++ [entry_of u i now s])
                   /\ selected_option (entry_of u i now s) = i)
  /\ (~ (- n <= i < n) -> db_votes s' = Some c).
Proof.
  intros Hids Hdb Hnew n s'. split.
  - intros Hi. destruct (index_in_range (POLL_OPTIONS cfg) i Hi) as [o Ho].
    destruct (receive_fresh cfg u now s i rest o c Hids Ho Hdb Hnew) as (H & _).
    split; [exact H | reflexivity].
  - intros Hi. unfold s'.
    assert (Hdrop : BotManager.receive_poll_answer cfg u now s = (Ok tt, error_logged s)).
    { unfold BotManager.receive_poll_answer, try_except, bind, lift, gets, modify,
        logger, emit, ret, raise.
      rewrite Hids, index_0_cons, (index_out_of_range _ _ Hi). reflexivity. }
    rewrite Hdrop. exact Hdb.
Qed.

(** X4: two valid votes of different voters, or on different polls, do
    not interfere: whichever arrives first, both are stored, each with the
    document it would have had alone. *)
Theorem independent_votes_commute (u1 u2 : Update) (now1 now2 : string) (s : State)
    (i1 i2 : Z) (r1 r2 : list Z) (o1 o2 : string) (c : list VoteEntry) :
  db_votes s = Some c ->
  option_ids (poll_answer u1) = i1 :: r1 -> index (POLL_OPTIONS cfg) i1 = Ok o1 ->
  option_ids (poll_answer u2) = i2 :: r2 -> index (POLL_OPTIONS cfg) i2 = Ok o2 ->
  user_id_of (user (poll_answer u1)) <> user_id_of (user (poll_answer u2))
  \/ poll_id (poll_answer u1) <> poll_id (poll_answer u2) ->
  Mongo.has_id vote_id (vote_id (entry_of u1 i1 now1 s)) c = false ->
  Mongo.has_id vote_id (vote_id (entry_of u2 i2 now2 s)) c = false ->
  let e1 := entry_of u1 i1 now1 s in
  let e2 := entry_of u2 i2 now2 s in
  db_votes (snd (listener cfg [(u1, now1); (u2, now2)] s)) = Some (c ++ [e1; e2])
  /\ db_votes (snd (listener cfg [(u2, now2); (u1, now1)] s)) = Some (c ++ [e2; e1]).
Proof.
  intros Hdb Hids1 Hidx1 Hids2 Hidx2 Hdiff Hnew1 Hnew2 e1 e2.
  assert (Hkeys : vote_id e1 <> vote_id e2).
  { intros Heq. apply vote_key_injective in Heq as [Hu Hp].
    destruct Hdiff as [Hd|Hd]; contradiction. }
  assert (Hstep : forall ua nowa ia ra oa ub nowb ib rb ob,
            option_ids (poll_answer ua) = ia :: ra ->
            index (POLL_OPTIONS cfg) ia = Ok oa ->
            option_ids (poll_answer ub) = ib :: rb ->
            index (POLL_OPTIONS cfg) ib = Ok ob ->
            Mongo.has_id vote_id (vote_id (entry_of ua ia nowa s)) c = false ->
            Mongo.has_id vote_id (vote_id (entry_of ub ib nowb s)) c = false ->
            vote_id (entry_of ua ia nowa s) <> vote_id (entry_of ub ib nowb s) ->
            db_votes (snd (listener cfg [(ua, nowa); (ub, nowb)] s))
            = Some (c ++ [entry_of ua ia nowa s; entry_of ub ib nowb s])).
  { intros ua nowa ia ra oa ub nowb ib rb ob Ha Hoa Hb Hob Hna Hnb Hne.
    unfold listener. cbn [for_each fst snd]. unfold bind.
    destruct (receive_fresh cfg ua nowa s ia ra oa c Ha Hoa Hdb Hna) as (Hv1 & Hp1 & Hr1).
    destruct (BotManager.receive_poll_answer cfg ua nowa s) as [x s1].
    cbn [fst snd] in *. subst x.
    assert (Hsame : entry_of ub ib nowb s1 = entry_of ub ib nowb s)
      by (unfold entry_of; rewrite Hp1; reflexivity).
    destruct (receive_fresh cfg ub nowb s1 ib rb ob _ Hb Hob Hv1) as (Hv2 & _ & Hr2).
    { rewrite Hsame. unfold Mongo.has_id in *. rewrite existsb_app, Hnb. cbn.
      rewrite bool_decide_eq_false_2 by exact Hne. reflexivity. }
    destruct (BotManager.receive_poll_answer cfg ub nowb s1) as [y s2].
    cbn [fst snd] in *. subst y. unfold ret. cbn [snd].
    rewrite Hv2, Hsame, <- app_assoc. reflexivity. }
  split.
  - eapply Hstep; eauto.
  - eapply Hstep; eauto.
Qed.

End VoteRecorderRange.

Lemma vote_stored_iff_python_range_witness :
  let s := process_start (Some []) None in
  db_votes (snd (BotManager.receive_poll_answer sample_cfg (vote_update 7 "p" [-1]) "t1" s))
  = Some ([] ++ [entry_of (vote_update 7 "p" [-1]) (-1) "t1" s])
  /\ selected_option (entry_of (vote_update 7 "p" [-1]) (-1) "t1" s) = -1.
Proof.
  intros s.
  apply (vote_stored_iff_python_range sample_cfg (vote_update 7 "p" [-1]) "t1" s
           (-1) [] []); try reflexivity.
  cbn. lia.
Defined.

Lemma independent_votes_commute_witness :
  let s := process_start (Some []) None in
  db_votes (snd (listener sample_cfg
                   [(vote_update 7 "p" [0], "t1"); (vote_update 8 "p" [1], "t2")] s))
  = Some ([] ++ [entry_of (vote_update 7 "p" [0]) 0 "t1" s;
                 entry_of (vote_update 8 "p" [1]) 1 "t2" s]).
Proof.
  intros s.
  apply (independent_votes_commute sample_cfg (vote_update 7 "p" [0])
           (vote_update 8 "p" [1]) "t1" "t2" s 0 1 [] [] "Option A" "Option B" []);
    try reflexivity.
  left. cbn. lia.
Defined.

(** * Further properties of the lifecycle *)

(** ** What a computation may append and how it may exit *)

(** [m] appends only events in [okE] and calls [os._exit] only with a
    code in [okX]. *)
Definition confined {A} (okE : Event -> Prop) (okX : Z -> Prop) (m : M State A) : Prop :=
  forall s,
    (exists l, trace (snd (m s)) = trace s ++ l /\ Forall (fun te => okE (snd te)) l)
    /\ (forall c, fst (m s) = Exit c -> okX c).

Section Confined.
Variable okE : Event -> Prop.
Variable okX : Z -> Prop.

Lemma confined_pure {A} (o : outcome A) :
  (forall c, o <> Exit c) -> confined okE okX (lift o).
Proof.
  intros Ho s. split.
  - exists []. cbn. rewrite app_nil_r. auto.
  - intros c Hc. cbn in Hc. destruct (Ho c Hc).
Qed.

Lemma confined_ret {A} (a : A) : confined okE okX (ret a).
Proof. apply (confined_pure (Ok a)). discriminate. Qed.

Lemma confined_raise {A} (e : exn) : confined okE okX (@raise State A e).
Proof. apply (confined_pure (Raise e)). discriminate. Qed.

Lemma confined_gets {A} (f : State -> A) : confined okE okX (gets f).
Proof. intros s. apply (confined_pure (Ok (f s))). discriminate. Qed.

Lemma confined_exit {A} (c : Z) : okX c -> confined okE okX (@os_exit State A c).
Proof.
  intros Hc s. split.
  - exists []. cbn. rewrite app_nil_r. auto.
  - intros c' [= <-]. exact Hc.
Qed.

Lemma confined_modify (f : State -> State) :
  (forall s, trace (f s) = trace s) -> confined okE okX (modify f).
Proof.
  intros Hf s. split.
  - exists []. cbn. rewrite Hf, app_nil_r. auto.
  - intros c Hc. discriminate Hc.
Qed.

Lemma confined_emit (e : Event) : okE e -> confined okE okX (emit e).
Proof.
  intros He s. split.
  - eexists. split; [reflexivity|]. constructor; [exact He | constructor].
  - intros c Hc. discriminate Hc.
Qed.

Lemma confined_bind {A B} (m : M State A) (k : A -> M State B) :
  confined okE okX m -> (forall a, confined okE okX (k a)) ->
  confined okE okX (bind m k).
Proof.
  intros Hm Hk s. unfold bind. destruct (Hm s) as [(l & Hl & Hall) Hx].
  destruct (m s) as [[a|e|c] s1]; cbn [fst snd] in *.
  - destruct (Hk a s1) as [(l' & Hl' & Hall') Hx']. split; [|exact Hx'].
    exists (l ++ l'). rewrite Hl', Hl, app_assoc. split; [reflexivity|].
    apply Forall_app. auto.
  - split; [eauto | discriminate].
  - split; [eauto|]. intros c' [= <-]. apply Hx. reflexivity.
Qed.

Lemma confined_try {A} (m : M State A) (h : exn -> M State A) :
  confined okE okX m -> (forall e, confined okE okX (h e)) ->
  confined okE okX (try_except m h).
Proof.
  intros Hm Hh s. unfold try_except. destruct (Hm s) as [(l & Hl & Hall) Hx].
  destruct (m s) as [[a|e|c] s1]; cbn [fst snd] in *.
  - split; [eauto | discriminate].
  - destruct (Hh e s1) as [(l' & Hl' & Hall') Hx']. split; [|exact Hx'].
    exists (l ++ l'). rewrite Hl', Hl, app_assoc. split; [reflexivity|].
    apply Forall_app. auto.
  - split; [eauto | exact Hx].
Qed.

Lemma confined_for_each {A} (l : list A) (body : A -> M State unit) :
  (forall a, confined okE okX (body a)) -> confined okE okX (for_each l body).
Proof.
  intros Hbody. induction l as [|a l IH]; cbn [for_each].
  - apply confined_ret.
  - apply confined_bind; [apply Hbody | intros _; exact IH].
Qed.

Lemma confined_when (b : bool) (m : M State unit) :
  confined okE okX m -> confined okE okX (when b m).
Proof. intros Hm. destruct b; [exact Hm | apply confined_ret]. Qed.

Lemma confined_index {A} (l : list A) (i : Z) : confined okE okX (lift (index l i)).
Proof.
  apply confined_pure. intros c.
  destruct (index_cases l i) as [H|[x H]]; rewrite H; discriminate.
Qed.

Lemma confined_truediv (a b : Z) : confined okE okX (lift (truediv a b)).
Proof.
  apply confined_pure. intros c. unfold truediv. destruct (b =? 0); discriminate.
Qed.

Lemma confined_insert {Doc Key : Type} `{EqDecision Key} (key : Doc -> Key)
    (d : Doc) (c : list Doc) :
  confined okE okX (lift (Mongo.insert_one key d c)).
Proof.
  apply confined_pure. intros x. unfold Mongo.insert_one.
  destruct (Mongo.has_id key (key d) c); discriminate.
Qed.

End Confined.

Ltac confine :=
  repeat first
    [ apply confined_ret | apply confined_raise | apply confined_gets
    | apply confined_index | apply confined_truediv | apply confined_insert
    | apply confined_exit; exact I
    | apply confined_emit; exact I
    | apply confined_modify; intros ?; reflexivity
    | apply confined_bind; [|intros ?]
    | apply confined_try; [|intros ?]
    | apply confined_for_each; intros ?
    | apply confined_when
    | match goal with
      | |- confined _ _ (match ?x with _ => _ end) => destruct x
      end ].

(** Any event but the shutdown signal. *)
Definition not_shutdown (e : Event) : Prop :=
  match e with
  | Shutdown => False
  | _ => True
  end.

(** A log record. *)
Definition is_log (e : Event) : Prop :=
  match e with
  | Log _ _ => True
  | _ => False
  end.

Definition no_exit (c : Z) : Prop := False.

(** X5: the vote handler only logs: it sends no Bot API request, never
    sleeps, never assigns into the poll payload and never ends the
    process. *)
Theorem vote_handler_only_logs (cfg : Config) (u : Update) (now : string) :
  confined is_log no_exit (BotManager.receive_poll_answer cfg u now).
Proof. unfold BotManager.receive_poll_answer. confine. Qed.

(** Nothing but the shutdown routines signals shutdown or ends the
    process. *)
Definition quiet {A} (m : M State A) : Prop := confined not_shutdown no_exit m.

Lemma quiet_tally (total : Z) (opts : list PollOption) :
  forall rows mx, quiet (BotManager.tally total opts rows mx).
Proof.
  unfold quiet. induction opts as [|o opts IH]; intros rows mx; cbn [BotManager.tally].
  - confine.
  - confine. apply IH.
Qed.

Lemma quiet_process (cp : Poll) (total : Z) :
  quiet (BotManager._process_poll_results cp total).
Proof.
  unfold quiet, BotManager._process_poll_results. confine; apply quiet_tally.
Qed.

Lemma quiet_close (w : World) (chat_id : Z) :
  quiet (BotManager._close_and_process_poll w chat_id).
Proof.
  unfold quiet, BotManager._close_and_process_poll. confine; apply quiet_process.
Qed.

Lemma quiet_send_poll (cfg : Config) (w : World) (chat_id : Z) (q : string) :
  quiet (BotManager._send_poll cfg w chat_id q).
Proof. unfold quiet, BotManager._send_poll. confine. Qed.

Lemma quiet_update_poll_data (cfg : Config) (m : Message) (now : Timestamp) (q : string) :
  quiet (BotManager.update_poll_data cfg m now q).
Proof. unfold quiet, BotManager.update_poll_data. confine. Qed.

Lemma quiet_send_image (w : World) (chat_id : Z) (path : option string) (caption : string) :
  quiet (BotManager._send_image w chat_id path caption).
Proof. unfold quiet, BotManager._send_image. confine. Qed.

Lemma quiet_send_reminder (cfg : Config) (w : World) (chat_id : Z) :
  quiet (BotManager._send_reminder cfg w chat_id).
Proof. unfold quiet, BotManager._send_reminder. confine. Qed.

Lemma quiet_unified_cleanup (w : World) (chat_id : Z) (r : option Message) :
  quiet (Unified._cleanup_and_save w chat_id r).
Proof. unfold quiet, Unified._cleanup_and_save. confine. Qed.

Lemma quiet_threading_cleanup (w : World) (chat_id : Z) (r : option Message) :
  quiet (Threading._cleanup_and_save w chat_id r).
Proof. unfold quiet, Threading._cleanup_and_save. confine. Qed.

(** ** The unified script always ends by signalling shutdown, once *)

(** How often shutdown was signalled. *)
Definition shutdowns (tr : list (Z * Event)) : nat :=
  length (omap (fun te => match snd te with
                          | Shutdown => Some tt
                          | _ => None
                          end) tr).

(** [m] either returns having signalled shutdown once more, or raises
    without having signalled it. *)
Definition shuts_down_or_raises (m : M State unit) : Prop :=
  forall s,
    (fst (m s) = Ok tt /\ shutdowns (trace (snd (m s))) = S (shutdowns (trace s)))
    \/ (exists e, fst (m s) = Raise e
                  /\ shutdowns (trace (snd (m s))) = shutdowns (trace s)).

(** [m] returns, having signalled shutdown once more. *)
Definition shuts_down (m : M State unit) : Prop :=
  forall s,
    fst (m s) = Ok tt /\ shutdowns (trace (snd (m s))) = S (shutdowns (trace s)).

Lemma shutdowns_quiet (tr l : list (Z * Event)) :
  Forall (fun te => not_shutdown (snd te)) l -> shutdowns (tr ++ l) = shutdowns tr.
Proof.
  intros Hl. unfold shutdowns. rewrite omap_app, length_app.
  assert (H0 : omap (fun te : Z * Event =>
                       match snd te with Shutdown => Some tt | _ => None end) l = []).
  { induction Hl as [|[t e] l He _ IH]; [reflexivity|].
    cbn. destruct e; try exact IH. destruct He. }
  rewrite H0. cbn. lia.
Qed.

Lemma sdr_bind {A} (m : M State A) (k : A -> M State unit) :
  quiet m -> (forall a, shuts_down_or_raises (k a)) -> shuts_down_or_raises (bind m k).
Proof.
  intros Hm Hk s. unfold bind. destruct (Hm s) as [(l & Hl & Hall) Hx].
  destruct (m s) as [[a|e|c] s1]; cbn [fst snd] in *.
  - assert (Hs1 : shutdowns (trace s1) = shutdowns (trace s))
      by (rewrite Hl; apply shutdowns_quiet; exact Hall).
    rewrite <- Hs1. apply Hk.
  - right. exists e. split; [reflexivity|]. rewrite Hl. apply shutdowns_quiet. exact Hall.
  - destruct (Hx c eq_refl).
Qed.

Lemma sdr_of_shuts_down (m : M State unit) : shuts_down m -> shuts_down_or_raises m.
Proof. intros Hm s. left. apply Hm. Qed.

Lemma shuts_down_try (m : M State unit) (h : exn -> M State unit) :
  shuts_down_or_raises m -> (forall e, shuts_down (h e)) -> shuts_down (try_except m h).
Proof.
  intros Hm Hh s. unfold try_except.
  destruct (Hm s) as [[Hok Hn] | (e & He & Hn)];
    destruct (m s) as [o s1]; cbn [fst snd] in *; subst o.
  - auto.
  - rewrite <- Hn. apply Hh.
Qed.

Lemma unified_shutdown_shuts_down : shuts_down Unified._shutdown.
Proof.
  intros s. split; [reflexivity|]. unfold Unified._shutdown. exec. cbn [snd trace with_trace].
  unfold shutdowns. rewrite !omap_app, !length_app. cbn. lia.
Qed.

Lemma logged_shutdown_shuts_down (l : Level) (msg : string) :
  shuts_down (logger l msg ;; Unified._shutdown).
Proof.
  intros s. split; [reflexivity|]. unfold Unified._shutdown. exec. cbn [snd trace with_trace].
  unfold shutdowns. rewrite !omap_app, !length_app. cbn. lia.
Qed.

Lemma unified_lifecycle_shuts_down (cfg : Config) (w : World) (chat_id : Z) :
  shuts_down (Unified._run_poll_lifecycle cfg w chat_id).
Proof.
  unfold Unified._run_poll_lifecycle. apply shuts_down_try.
  - apply sdr_bind; [unfold quiet; confine|]. intros _.
    apply sdr_bind; [apply quiet_send_reminder|]. intros r.
    apply sdr_bind; [unfold quiet; confine|]. intros _.
    apply sdr_bind; [apply quiet_close|]. intros _.
    apply sdr_bind; [apply quiet_unified_cleanup|]. intros _.
    apply sdr_of_shuts_down, unified_shutdown_shuts_down.
  - intros e. apply logged_shutdown_shuts_down.
Qed.

Lemma unified_post_poll_shuts_down (cfg : Config) (w : World) (path : option string)
    (caption : string) :
  shuts_down (Unified.post_poll cfg w path caption).
Proof.
  unfold Unified.post_poll. apply shuts_down_try.
  - apply sdr_bind; [unfold quiet; confine|]. intros _.
    apply sdr_bind; [apply quiet_send_poll|]. intros poll_msg.
    apply sdr_bind; [apply quiet_update_poll_data|]. intros _.
    apply sdr_bind; [unfold quiet; confine|]. intros _.
    apply sdr_bind; [apply quiet_send_image|]. intros _.
    apply sdr_of_shuts_down, unified_lifecycle_shuts_down.
  - intros e. apply logged_shutdown_shuts_down.
Qed.

Lemma unified_run_bot_async_shuts_down (cfg : Config) (w : World) :
  shuts_down (Unified.run_bot_async cfg w).
Proof.
  intros s.
  assert (Heq : Unified.run_bot_async cfg w s
                = (if ENABLE_IMAGE_SENDING cfg && truthy_str (DEFAULT_IMAGE_PATH cfg)
                   then Unified.post_poll cfg w (DEFAULT_IMAGE_PATH cfg)
                          (DEFAULT_IMAGE_CAPTION cfg)
                   else Unified.post_poll cfg w None "")
                    (snd (store fresh_payload s))) by reflexivity.
  rewrite Heq.
  assert (Hs1 : shutdowns (trace (snd (store fresh_payload s))) = shutdowns (trace s)).
  { cbn [snd]. exec. cbn [snd trace with_trace with_payload].
    apply shutdowns_quiet. repeat constructor. }
  rewrite <- Hs1.
  destruct (ENABLE_IMAGE_SENDING cfg && truthy_str (DEFAULT_IMAGE_PATH cfg));
    apply unified_post_poll_shuts_down.
Qed.

(** The configuration [main] of the unified script accepts. *)
Definition unified_valid (cfg : Config) : bool :=
  truthy_str (TG_BOT_API_TOKEN cfg) && truthy_int (TG_CHAT_ID cfg)
  && (REMINDER_MINS cfg <? POLL_DURATION_IN_MINS cfg).

(** The error [main] of the unified script raises for a configuration it
    rejects: the first failing check decides. *)
Definition unified_config_error (cfg : Config) : exn :=
  if negb (truthy_str (TG_BOT_API_TOKEN cfg)) then BotConfigError "Missing TG_BOT_API_TOKEN"
  else if negb (truthy_int (TG_CHAT_ID cfg)) then BotConfigError "Missing TG_CHAT_ID"
  else BotConfigError "Invalid poll duration configuration".

(** X6: [main] of the unified script returns normally exactly for the
    configurations it accepts (token present, chat identifier non-zero,
    duration greater than lead), whatever the Bot API and the database
    do afterwards: no failure of a request escapes it.  For the others it
    raises [BotConfigError], the first failing check giving the message,
    after one ERROR record and nothing else. *)
Theorem unified_main_outcome (cfg : Config) (w : World) (s : State) :
  (unified_valid cfg = true -> fst (Unified.main cfg w s) = Ok tt)
  /\ (unified_valid cfg = false ->
      fst (Unified.main cfg w s) = Raise (unified_config_error cfg)
      /\ exists text,
           snd (Unified.main cfg w s)
           = with_trace (trace s ++ [(clock s, Log ERROR text)]) s).
Proof.
  unfold unified_valid, unified_config_error, Unified.main. split.
  - intros Hv. apply andb_true_iff in Hv as [Hv Hd].
    apply andb_true_iff in Hv as [Ht Hc]. rewrite Ht, Hc.
    assert (Hle : (POLL_DURATION_IN_MINS cfg <=? REMINDER_MINS cfg) = false)
      by (apply Z.leb_gt; apply Z.ltb_lt in Hd; exact Hd).
    rewrite Hle. exec.
    match goal with
    | |- context [Unified.run_bot_async cfg w ?s0] =>
        destruct (unified_run_bot_async_shuts_down cfg w s0) as [Hok _];
        destruct (Unified.run_bot_async cfg w s0) as [o s1]
    end.
    cbn [fst] in Hok. subst o. reflexivity.
  - intros Hv.
    destruct (truthy_str (TG_BOT_API_TOKEN cfg)); cbn [negb andb] in *.
    + destruct (truthy_int (TG_CHAT_ID cfg)); cbn [negb andb] in *.
      * assert (Hle : (POLL_DURATION_IN_MINS cfg <=? REMINDER_MINS cfg) = true)
          by (apply Z.leb_le; apply Z.ltb_ge in Hv; exact Hv).
        rewrite Hle. exec. split; [reflexivity | eexists; reflexivity].
      * exec. split; [reflexivity | eexists; reflexivity].
    + exec. split; [reflexivity | eexists; reflexivity].
Qed.

Lemma unified_main_outcome_witness :
  fst (Unified.main sample_cfg (sample_world (closed_poll_of 0 []))
         (process_start None None)) = Ok tt.
Proof.
  apply (unified_main_outcome sample_cfg (sample_world (closed_poll_of 0 []))
           (process_start None None)).
  reflexivity.
Defined.



(** ** The threading script always ends the process itself *)

(** The last record of a trace is the log record [(l, msg)]. *)
Definition ends_with_log (l : Level) (msg : string) (s : State) : Prop :=
  exists tr t, trace s = tr ++ [(t, Log l msg)].

(** [m] either ends the process with code 0, having just logged
    completion, or raises. *)
Definition completes_or_raises (m : M State unit) : Prop :=
  forall s,
    (fst (m s) = Exit 0
     /\ ends_with_log INFO "Poll workflow completed successfully" (snd (m s)))
    \/ (exists e, fst (m s) = Raise e).

Lemma cor_bind {A} (m : M State A) (k : A -> M State unit) :
  quiet m -> (forall a, completes_or_raises (k a)) -> completes_or_raises (bind m k).
Proof.
  intros Hm Hk s. unfold bind. destruct (Hm s) as [_ Hx].
  destruct (m s) as [[a|e|c] s1]; cbn [fst snd] in *.
  - apply Hk.
  - right. eauto.
  - destruct (Hx c eq_refl).
Qed.

Lemma cor_threading_shutdown : completes_or_raises Threading._shutdown.
Proof.
  intros s. left. split; [reflexivity|]. unfold Threading._shutdown. exec.
  cbn [snd trace with_trace]. eexists _, _. reflexivity.
Qed.

Lemma cor_threading_lifecycle (cfg : Config) (w : World) (chat_id : Z) :
  completes_or_raises (Threading._run_poll_lifecycle cfg w chat_id).
Proof.
  unfold Threading._run_poll_lifecycle.
  apply cor_bind; [unfold quiet; confine|]. intros _.
  apply cor_bind; [apply quiet_send_reminder|]. intros r.
  apply cor_bind; [unfold quiet; confine|]. intros _.
  apply cor_bind; [apply quiet_close|]. intros _.
  apply cor_bind; [apply quiet_threading_cleanup|]. intros _.
  apply cor_threading_shutdown.
Qed.

(** How a run of the threading script's [post_poll] ends: by
    [os._exit(0)] after the completion record, or by [os._exit(1)] after
    the failure record. *)
Definition exits_0_or_1 (r : outcome unit * State) : Prop :=
  (fst r = Exit 0
   /\ ends_with_log INFO "Poll workflow completed successfully" (snd r))
  \/ (fst r = Exit 1
      /\ ends_with_log ERROR "Failed to execute poll workflow: {e}" (snd r)).

Lemma exits_try (body : M State unit) (s : State) :
  completes_or_raises body ->
  exits_0_or_1
    (try_except body
       (fun e => logger ERROR "Failed to execute poll workflow: {e}" ;; os_exit 1) s).
Proof.
  intros Hbody. unfold try_except. destruct (Hbody s) as [[Hx Hlog] | [e He]];
    destruct (body s) as [o s1]; cbn [fst snd] in *; subst o.
  - left. auto.
  - right. split; [reflexivity|]. exec. cbn [snd trace with_trace].
    eexists _, _. reflexivity.
Qed.

Lemma threading_post_poll_exits (cfg : Config) (w : World) (path : option string)
    (caption : string) (s : State) :
  exits_0_or_1 (Threading.post_poll cfg w path caption s).
Proof.
  unfold Threading.post_poll. apply exits_try.
  apply cor_bind; [unfold quiet; confine|]. intros _.
  apply cor_bind; [apply quiet_send_poll|]. intros poll_msg.
  apply cor_bind; [unfold quiet; confine|]. intros pl.
  do 7 (apply cor_bind; [unfold quiet; confine|]; intros _).
  apply cor_bind.
  { destruct (truthy_str path); [|unfold quiet; confine].
    apply confined_bind; [apply quiet_send_image | intros _; confine]. }
  intros _. apply cor_threading_lifecycle.
Qed.

(** X8: the threading script never returns from the poll workflow and
    never lets an exception out of it: with the token and the chat
    identifier set, whatever the Bot API and the database answer, [main]
    ends the process with [os._exit(0)] right after logging completion, or
    with [os._exit(1)] right after logging the failure.  With the token or
    the chat identifier missing it logs one error and returns normally,
    raising nothing and sending nothing. *)
Theorem threading_main_outcome (cfg : Config) (w : World) (s : State) :
  (truthy_str (TG_BOT_API_TOKEN cfg) && truthy_int (TG_CHAT_ID cfg) = true ->
   exits_0_or_1 (Threading.main cfg w s))
  /\ (truthy_str (TG_BOT_API_TOKEN cfg) && truthy_int (TG_CHAT_ID cfg) = false ->
      exists text,
        Threading.main cfg w s
        = (Ok tt, with_trace (trace s ++ [(clock s, Log ERROR text)]) s)).
Proof.
  unfold Threading.main. split; intros Hv.
  - apply andb_true_iff in Hv as [-> ->]. cbn [negb].
    unfold bind at 1. unfold logger at 1, emit at 1, modify at 1.
    unfold bind at 1. unfold Threading.__init__, store. exec.
    destruct (ENABLE_IMAGE_SENDING cfg && truthy_str (DEFAULT_IMAGE_PATH cfg));
      apply threading_post_poll_exits.
  - destruct (truthy_str (TG_BOT_API_TOKEN cfg)); cbn [negb andb] in *.
    + rewrite Hv. cbn [negb]. eexists. reflexivity.
    + eexists. reflexivity.
Qed.

Lemma threading_main_outcome_witness :
  exits_0_or_1 (Threading.main sample_cfg (sample_world (closed_poll_of 0 []))
                  (process_start None None)).
Proof.
  apply (threading_main_outcome sample_cfg (sample_world (closed_poll_of 0 []))
           (process_start None None)).
  reflexivity.
Defined.

(** * Further properties of the requests and the poll record *)

(** ** The optional image *)

(** The identifier [_send_image] adds to the tracked ones: that of the
    photo message, when a path was given, the request went through and
    the identifier is truthy. *)
Definition tracked_image (w : World) (path : option string) : list Z :=
  if truthy_str path then
    match send_photo_result w with
    | Some m => if truthy_int (message_id m) then [message_id m] else []
    | None => []
    end
  else [].

Lemma set_message_ids_same (p : PollPayload) :
  set_message_ids (message_ids p ++ []) p = p.
Proof. destruct p. unfold set_message_ids. cbn. rewrite app_nil_r. reflexivity. Qed.

(** X9: [_send_image] never raises, whatever happens to the photo
    request: it returns the photo message when a path was given and the
    request went through, [None] otherwise; it tracks the identifier of
    that message, once, and touches nothing else of the payload, the
    collections or the clock. *)
Theorem send_image_failure_is_swallowed (w : World) (chat_id : Z)
    (path : option string) (caption : string) (s : State) :
  let r := BotManager._send_image w chat_id path caption s in
  fst r = Ok (if truthy_str path then send_photo_result w else None)
  /\ poll_payload (snd r)
     = set_message_ids (message_ids (poll_payload s) ++ tracked_image w path)
                       (poll_payload s)
  /\ db_votes (snd r) = db_votes s
  /\ db_polls (snd r) = db_polls s
  /\ clock (snd r) = clock s.
Proof.
  unfold BotManager._send_image, BotManager.send_image, BotManager.add_message_id,
    tracked_image.
  destruct path as [path|]; cbn [truthy_str];
    [|rewrite set_message_ids_same; cbn; auto].
  destruct (negb (String.eqb path "")); cbn [truthy_str];
    [|rewrite set_message_ids_same; cbn; auto].
  destruct (startswith "http" path);
    (destruct (send_photo_result w) as [m|];
     [destruct (truthy_int (message_id m)) eqn:Hm|]);
    exec; rewrite ?Hm; cbn;
    rewrite ?set_message_ids_same; auto.
Qed.

(** ** Triples over outcomes *)

(** Started in a state of [P], [m] ends with an outcome and a state
    related by [Q]. *)
Definition hoare {A} (P : State -> Prop) (m : M State A)
    (Q : outcome A -> State -> Prop) : Prop :=
  forall s, P s -> Q (fst (m s)) (snd (m s)).

(** [m] keeps the invariant [I], however it ends. *)
Definition keeps {A} (I : State -> Prop) (m : M State A) : Prop :=
  hoare I m (fun _ => I).

(** [m] raises or exits. *)
Definition never_returns {A} (m : M State A) : Prop :=
  forall s a, fst (m s) <> Ok a.

Lemma hoare_bind {A B} (P : State -> Prop) (m : M State A) (k : A -> M State B)
    (Q : outcome A -> State -> Prop) (R : outcome B -> State -> Prop) :
  hoare P m Q ->
  (forall a, hoare (Q (Ok a)) (k a) R) ->
  (forall e s, Q (Raise e) s -> R (Raise e) s) ->
  (forall c s, Q (Exit c) s -> R (Exit c) s) ->
  hoare P (bind m k) R.
Proof.
  intros Hm Hk Hr Hx s HP. unfold bind. specialize (Hm s HP).
  destruct (m s) as [[a|e|c] s1]; cbn [fst snd] in *.
  - apply Hk. exact Hm.
  - apply Hr. exact Hm.
  - apply Hx. exact Hm.
Qed.

Lemma hoare_try {A} (P : State -> Prop) (m : M State A) (h : exn -> M State A)
    (Q R : outcome A -> State -> Prop) :
  hoare P m Q ->
  (forall e, hoare (Q (Raise e)) (h e) R) ->
  (forall a s, Q (Ok a) s -> R (Ok a) s) ->
  (forall c s, Q (Exit c) s -> R (Exit c) s) ->
  hoare P (try_except m h) R.
Proof.
  intros Hm Hh Ho Hx s HP. unfold try_except. specialize (Hm s HP).
  destruct (m s) as [[a|e|c] s1]; cbn [fst snd] in *.
  - apply Ho. exact Hm.
  - apply Hh. exact Hm.
  - apply Hx. exact Hm.
Qed.

Lemma hoare_weaken {A} (P P' : State -> Prop) (m : M State A)
    (Q Q' : outcome A -> State -> Prop) :
  hoare P m Q -> (forall s, P' s -> P s) -> (forall o s, Q o s -> Q' o s) ->
  hoare P' m Q'.
Proof. intros Hm HP HQ s Hs. apply HQ, Hm, HP, Hs. Qed.

Section Keeps.
Variable I : State -> Prop.

Lemma keeps_lift {A} (o : outcome A) : keeps I (lift o).
Proof. intros s Hs. exact Hs. Qed.

Lemma keeps_ret {A} (a : A) : keeps I (ret a).
Proof. intros s Hs. exact Hs. Qed.

Lemma keeps_raise {A} (e : exn) : keeps I (@raise State A e).
Proof. intros s Hs. exact Hs. Qed.

Lemma keeps_exit {A} (c : Z) : keeps I (@os_exit State A c).
Proof. intros s Hs. exact Hs. Qed.

Lemma keeps_gets {A} (f : State -> A) : keeps I (gets f).
Proof. intros s Hs. exact Hs. Qed.

Lemma keeps_modify (f : State -> State) :
  (forall s, I s -> I (f s)) -> keeps I (modify f).
Proof. intros Hf s Hs. apply Hf, Hs. Qed.

Lemma keeps_emit (e : Event) :
  (forall s, I s -> I (snd (emit e s))) -> keeps I (emit e).
Proof. intros He s Hs. apply He, Hs. Qed.

Lemma keeps_store (p : PollPayload) :
  (forall s, I s -> I (snd (store p s))) -> keeps I (store p).
Proof. intros Hp s Hs. apply Hp, Hs. Qed.

Lemma keeps_update (f : PollPayload -> PollPayload) :
  (forall s, I s -> I (snd (store (f (poll_payload s)) s))) ->
  keeps I (p <- gets poll_payload ;; store (f p)).
Proof. intros Hf s Hs. apply Hf, Hs. Qed.

Lemma keeps_bind {A B} (m : M State A) (k : A -> M State B) :
  keeps I m -> (forall a, keeps I (k a)) -> keeps I (bind m k).
Proof.
  intros Hm Hk. apply (hoare_bind I m k (fun _ => I)); auto.
Qed.

(** What follows a step that never returns does not matter. *)
Lemma keeps_stuck {A B} (m : M State A) (k : A -> M State B) :
  keeps I m -> never_returns m -> keeps I (bind m k).
Proof.
  intros Hm Hn s Hs. unfold bind. specialize (Hm s Hs). specialize (Hn s).
  destruct (m s) as [[a|e|c] s1]; cbn [fst snd] in *; [|exact Hm..].
  destruct (Hn a eq_refl).
Qed.

Lemma keeps_try {A} (m : M State A) (h : exn -> M State A) :
  keeps I m -> (forall e, keeps I (h e)) -> keeps I (try_except m h).
Proof.
  intros Hm Hh. apply (hoare_try I m h (fun _ => I)); auto.
Qed.

Lemma keeps_for_each {A} (l : list A) (body : A -> M State unit) :
  (forall a, keeps I (body a)) -> keeps I (for_each l body).
Proof.
  intros Hbody. induction l as [|a l IH]; cbn [for_each].
  - apply keeps_ret.
  - apply keeps_bind; [apply Hbody | intros _; exact IH].
Qed.

Lemma keeps_when (b : bool) (m : M State unit) : keeps I m -> keeps I (when b m).
Proof. intros Hm. destruct b; [exact Hm | apply keeps_ret]. Qed.

End Keeps.

(** Reduce a [keeps] goal to what its assignments and events require. *)
Ltac keep :=
  repeat first
    [ apply keeps_ret | apply keeps_raise | apply keeps_gets | apply keeps_exit
    | apply keeps_lift
    | match goal with
      | |- keeps _ (bind (gets poll_payload) (fun p => store _)) => apply keeps_update
      | |- keeps _ (store _) => apply keeps_store
      | |- keeps _ (emit _) => apply keeps_emit
      | |- keeps _ (logger _ _) => apply keeps_emit
      | |- keeps _ (modify _) => apply keeps_modify
      | |- keeps _ (asyncio_sleep _) => unfold asyncio_sleep
      | |- keeps _ (request _ _) => unfold request
      | |- keeps _ (bind _ _) => apply keeps_bind; [|intros ?]
      | |- keeps _ (try_except _ _) => apply keeps_try; [|intros ?]
      | |- keeps _ (for_each _ _) => apply keeps_for_each; intros ?
      | |- keeps _ (when _ _) => apply keeps_when
      | |- keeps _ (match ?x with _ => _ end) => destruct x
      end ].

(** ** A run that fails before the poll is closed *)

(** The events of a run in which the poll is not closed: no result is
    announced, no message is deleted and every payload assignment leaves
    the status [ACTIVE]; [stop_allowed] tells whether the close request
    itself may have been issued. *)
Definition poll_left_open (stop_allowed : bool) (e : Event) : Prop :=
  match e with
  | StopPoll _ _ => stop_allowed = true
  | DeleteMessage _ _ => False
  | SendMessage _ (ConclusionText _ _ _) => False
  | Store p => status p = ACTIVE
  | _ => True
  end.

(** Since the state with poll collection [polls] and trace [tr0], the
    collection is unchanged and only such events were appended. *)
Definition untouched (stop_allowed : bool) (polls : option (list PollPayload))
    (tr0 : list (Z * Event)) (s : State) : Prop :=
  db_polls s = polls
  /\ exists l, trace s = tr0 ++ l
               /\ Forall (fun te => poll_left_open stop_allowed (snd te)) l.

(** The same, with the payload still [ACTIVE]. *)
Definition left_open (stop_allowed : bool) (polls : option (list PollPayload))
    (tr0 : list (Z * Event)) (s : State) : Prop :=
  untouched stop_allowed polls tr0 s /\ status (poll_payload s) = ACTIVE.

Section LeftOpen.
Variable b : bool.
Variable polls : option (list PollPayload).
Variable tr0 : list (Z * Event).

Lemma untouched_emit (e : Event) (s : State) :
  poll_left_open b e -> untouched b polls tr0 s ->
  untouched b polls tr0 (snd (emit e s)).
Proof.
  intros He (Hdb & l & Htr & Hl). split; [exact Hdb|].
  exists (l ++ [(clock s, e)]). cbn. rewrite Htr, app_assoc. split; [reflexivity|].
  apply Forall_app. split; [exact Hl|]. constructor; [exact He | constructor].
Qed.

Lemma left_open_emit (e : Event) (s : State) :
  poll_left_open b e -> left_open b polls tr0 s ->
  left_open b polls tr0 (snd (emit e s)).
Proof.
  intros He [Hu Hst]. split; [apply untouched_emit; assumption | exact Hst].
Qed.

Lemma left_open_clock (t : State -> Z) (s : State) :
  left_open b polls tr0 s -> left_open b polls tr0 (with_clock (t s) s).
Proof. intros H. exact H. Qed.

Lemma untouched_store (p : PollPayload) (s : State) :
  status p = ACTIVE -> untouched b polls tr0 s ->
  left_open b polls tr0 (snd (store p s)).
Proof.
  intros Hp (Hdb & l & Htr & Hl). split; [split; [exact Hdb|] | exact Hp].
  exists (l ++ [(clock s, Store p)]). cbn. rewrite Htr, app_assoc.
  split; [reflexivity|].
  apply Forall_app. split; [exact Hl|]. constructor; [exact Hp | constructor].
Qed.

Lemma left_open_store (p : PollPayload) (s : State) :
  status p = ACTIVE -> left_open b polls tr0 s ->
  left_open b polls tr0 (snd (store p s)).
Proof. intros Hp [Hu _]. apply untouched_store; assumption. Qed.

Lemma left_open_update (f : PollPayload -> PollPayload) (s : State) :
  (forall p, status (f p) = status p) -> left_open b polls tr0 s ->
  left_open b polls tr0 (snd (store (f (poll_payload s)) s)).
Proof.
  intros Hf H. apply left_open_store; [|exact H].
  rewrite Hf. exact (proj2 H).
Qed.

End LeftOpen.

(** Discharge what [keep] leaves for the invariant [left_open]. *)
Ltac stay_open :=
  keep;
  first
    [ intros ? ?; apply left_open_update; [intros ?; reflexivity | assumption]
    | intros ? ?; apply left_open_store; [reflexivity | assumption]
    | intros ? ?; apply left_open_emit; [exact Logic.I | assumption]
    | intros ? ?; assumption ].

Lemma reminder_stuck (cfg : Config) (w : World) (chat_id : Z) :
  send_reminder_result w = None ->
  never_returns (BotManager._send_reminder cfg w chat_id).
Proof.
  intros Hw s a. unfold BotManager._send_reminder. exec. rewrite Hw. discriminate.
Qed.

Lemma stop_poll_stuck (w : World) (chat_id : Z) (mid : option Z) :
  stop_poll_result w = None ->
  never_returns (request (StopPoll chat_id mid) (stop_poll_result w)).
Proof. intros Hw s a. exec. rewrite Hw. discriminate. Qed.

(** The world fails the run before the poll is closed: at the reminder,
    or (when [stop_allowed]) at the close request. *)
Definition stalls (stop_allowed : bool) (w : World) : Prop :=
  send_reminder_result w = None
  \/ (stop_allowed = true /\ stop_poll_result w = None).

Section BeforeTheClose.
Variable b : bool.
Variable polls : option (list PollPayload).
Variable tr0 : list (Z * Event).
Variable cfg : Config.
Variable w : World.
Hypothesis Hstalls : stalls b w.

Lemma open_send_poll (chat_id : Z) (q : string) :
  keeps (left_open b polls tr0) (BotManager._send_poll cfg w chat_id q).
Proof. unfold BotManager._send_poll, request. stay_open. Qed.

Lemma open_update_poll_data (m : Message) (now : Timestamp) (q : string) :
  keeps (left_open b polls tr0) (BotManager.update_poll_data cfg m now q).
Proof. unfold BotManager.update_poll_data. stay_open. Qed.

Lemma open_send_image (chat_id : Z) (path : option string) (caption : string) :
  keeps (left_open b polls tr0) (BotManager._send_image w chat_id path caption).
Proof.
  unfold BotManager._send_image, BotManager.send_image, BotManager.add_message_id,
    request.
  stay_open.
Qed.

Lemma open_sleep (d : Z) : keeps (left_open b polls tr0) (asyncio_sleep d).
Proof. unfold asyncio_sleep. stay_open. Qed.

Lemma open_send_reminder (chat_id : Z) :
  keeps (left_open b polls tr0) (BotManager._send_reminder cfg w chat_id).
Proof. unfold BotManager._send_reminder, request. stay_open. Qed.

Lemma open_unified_shutdown : keeps (left_open b polls tr0) Unified._shutdown.
Proof. unfold Unified._shutdown. stay_open. Qed.

(** The shared part of the lifecycle never gets past the close request. *)
Lemma open_waits_then (chat_id : Z) (k : Message -> M State unit) :
  keeps (left_open b polls tr0) (waits_then cfg w chat_id k).
Proof.
  unfold waits_then. apply keeps_bind; [apply open_sleep | intros _].
  destruct Hstalls as [Hrem | [Hb Hstop]].
  - apply keeps_stuck; [apply open_send_reminder | apply reminder_stuck, Hrem].
  - apply keeps_bind; [apply open_send_reminder | intros r].
    apply keeps_bind; [apply open_sleep | intros _].
    unfold BotManager._close_and_process_poll.
    apply keeps_stuck.
    + apply keeps_bind; [apply keeps_gets | intros mid].
      apply keeps_stuck; [|apply stop_poll_stuck, Hstop].
      unfold request. rewrite Hstop.
      apply keeps_bind; [|intros _; apply keeps_raise].
      apply keeps_emit. intros s Hs. apply left_open_emit; [exact Hb | exact Hs].
    + intros s a. exec. rewrite Hstop. discriminate.
Qed.

Lemma open_unified_lifecycle (chat_id : Z) :
  keeps (left_open b polls tr0) (Unified._run_poll_lifecycle cfg w chat_id).
Proof.
  unfold Unified._run_poll_lifecycle. apply keeps_try.
  - apply (open_waits_then chat_id
             (fun r => Unified._cleanup_and_save w chat_id (Some r) ;;
                       Unified._shutdown)).
  - intros e. apply keeps_bind; [stay_open | intros _; apply open_unified_shutdown].
Qed.

Lemma open_threading_lifecycle (chat_id : Z) :
  keeps (left_open b polls tr0) (Threading._run_poll_lifecycle cfg w chat_id).
Proof.
  apply (open_waits_then chat_id
           (fun r => Threading._cleanup_and_save w chat_id (Some r) ;;
                     Threading._shutdown)).
Qed.

Lemma open_unified_post_poll (path : option string) (caption : string) :
  keeps (left_open b polls tr0) (Unified.post_poll cfg w path caption).
Proof.
  unfold Unified.post_poll. apply keeps_try.
  - apply keeps_bind; [stay_open | intros _].
    apply keeps_bind; [apply open_send_poll | intros poll_msg].
    apply keeps_bind; [apply open_update_poll_data | intros _].
    apply keeps_bind; [stay_open | intros _].
    apply keeps_bind; [apply open_send_image | intros _].
    apply open_unified_lifecycle.
  - intros e. apply keeps_bind; [stay_open | intros _; apply open_unified_shutdown].
Qed.

Lemma open_threading_post_poll (path : option string) (caption : string) :
  keeps (left_open b polls tr0) (Threading.post_poll cfg w path caption).
Proof.
  unfold Threading.post_poll. apply keeps_try.
  - apply keeps_bind; [stay_open | intros _].
    apply keeps_bind; [apply open_send_poll | intros poll_msg].
    apply keeps_bind; [stay_open | intros pl].
    apply keeps_bind; [stay_open | intros _].
    do 6 (apply keeps_bind; [stay_open | intros _]).
    apply keeps_bind.
    { destruct (truthy_str path); [|apply keeps_ret].
      apply keeps_bind; [apply open_send_image | intros _; apply keeps_ret]. }
    intros _. apply open_threading_lifecycle.
  - intros e. stay_open.
Qed.

End BeforeTheClose.

Section StalledRun.
Variable b : bool.
Variable polls : option (list PollPayload).
Variable tr0 : list (Z * Event).
Variable cfg : Config.
Variable w : World.
Hypothesis Hstalls : stalls b w.

Lemma untouched_log (l : Level) (msg : string) :
  keeps (untouched b polls tr0) (logger l msg).
Proof. intros s Hs. apply untouched_emit; [exact Logic.I | exact Hs]. Qed.

Lemma left_open_log (l : Level) (msg : string) :
  hoare (left_open b polls tr0) (logger l msg) (fun _ => untouched b polls tr0).
Proof. intros s Hs. apply untouched_emit; [exact Logic.I | exact (proj1 Hs)]. Qed.

Lemma stalled_unified_run :
  hoare (untouched b polls tr0) (Unified.run_bot_async cfg w)
        (fun _ => left_open b polls tr0).
Proof.
  unfold Unified.run_bot_async, Unified.__init__.
  apply (hoare_bind _ _ _ (fun _ => left_open b polls tr0)); [| |auto..].
  - intros s Hs. apply untouched_store; [reflexivity | exact Hs].
  - intros _. destruct (ENABLE_IMAGE_SENDING cfg && truthy_str (DEFAULT_IMAGE_PATH cfg));
      apply open_unified_post_poll; exact Hstalls.
Qed.

Lemma stalled_unified_main : keeps (untouched b polls tr0) (Unified.main cfg w).
Proof.
  unfold Unified.main.
  do 3 (apply keeps_bind;
        [keep; intros ? ?; apply untouched_emit; [exact Logic.I | assumption]
        | intros _]).
  do 4 (apply keeps_bind; [apply untouched_log | intros _]).
  apply (hoare_bind _ _ _ (fun _ => left_open b polls tr0)).
  - apply (hoare_try _ _ _ (fun _ => left_open b polls tr0)); [| |auto..].
    + apply stalled_unified_run.
    + intros e. destruct e; stay_open.
  - intros _. apply left_open_log.
  - intros e s Hs. exact (proj1 Hs).
  - intros c s Hs. exact (proj1 Hs).
Qed.

Lemma stalled_threading_main : keeps (untouched b polls tr0) (Threading.main cfg w).
Proof.
  unfold Threading.main.
  destruct (negb (truthy_str (TG_BOT_API_TOKEN cfg))); [apply untouched_log|].
  destruct (negb (truthy_int (TG_CHAT_ID cfg))); [apply untouched_log|].
  apply keeps_bind; [apply untouched_log | intros _].
  unfold Threading.__init__.
  apply (hoare_bind _ _ _ (fun _ => left_open b polls tr0)).
  - intros s Hs. apply untouched_store; [reflexivity | exact Hs].
  - intros _.
    apply (hoare_weaken (left_open b polls tr0) _ _ (fun _ => left_open b polls tr0));
      [|auto | intros o s Hs; exact (proj1 Hs)].
    destruct (ENABLE_IMAGE_SENDING cfg && truthy_str (DEFAULT_IMAGE_PATH cfg));
      apply open_threading_post_poll; exact Hstalls.
  - intros e s Hs. exact (proj1 Hs).
  - intros c s Hs. exact (proj1 Hs).
Qed.

End StalledRun.

Lemma untouched_start (b : bool) (s : State) : untouched b (db_polls s) (trace s) s.
Proof. split; [reflexivity|]. exists []. rewrite app_nil_r. auto. Qed.

(** A world in which every request succeeds but the close. *)
Definition world_failing_close : World :=
  {| now_at_start := now_at_start (sample_world (closed_poll_of 0 []));
     now_at_close := "2025-01-01T01:00:00+00:00";
     send_poll_result := send_poll_result (sample_world (closed_poll_of 0 []));
     send_photo_result := Some (plain_message 10);
     send_reminder_result := Some (plain_message 11);
     stop_poll_result := None;
     send_conclusion_result := Some (plain_message 12);
     delete_message_ok := fun _ => true |}.

(** A world in which the reminder request fails. *)
Definition world_failing_reminder : World :=
  {| now_at_start := now_at_start (sample_world (closed_poll_of 0 []));
     now_at_close := "2025-01-01T01:00:00+00:00";
     send_poll_result := send_poll_result (sample_world (closed_poll_of 0 []));
     send_photo_result := Some (plain_message 10);
     send_reminder_result := None;
     stop_poll_result := Some (closed_poll_of 0 []);
     send_conclusion_result := Some (plain_message 12);
     delete_message_ok := fun _ => true |}.

(** X10: when the close request fails, the run leaves the poll as it
    was, in both scripts and for every configuration: no result is
    announced, no message is deleted (the reminder stays in the chat),
    nothing is saved to the poll collection and no payload assignment
    writes a status other than [ACTIVE]. *)
Theorem failed_close_leaves_poll_open (cfg : Config) (w : World) (s : State) :
  stop_poll_result w = None ->
  untouched true (db_polls s) (trace s) (snd (Unified.main cfg w s))
  /\ untouched true (db_polls s) (trace s) (snd (Threading.main cfg w s)).
Proof.
  intros Hw.
  assert (Hst : stalls true w) by (right; auto).
  split.
  - apply (stalled_unified_main true _ _ cfg w Hst s), untouched_start.
  - apply (stalled_threading_main true _ _ cfg w Hst s), untouched_start.
Qed.

Lemma failed_close_leaves_poll_open_witness :
  untouched true None [] (snd (Unified.main sample_cfg world_failing_close
                                 (process_start None None)))
  /\ untouched true None [] (snd (Threading.main sample_cfg world_failing_close
                                    (process_start None None))).
Proof.
  apply (failed_close_leaves_poll_open sample_cfg world_failing_close
           (process_start None None)).
  reflexivity.
Defined.

(** X11: when the reminder request fails, the poll is never closed: in
    both scripts and for every configuration the run issues no close
    request at all, announces no result, deletes no message, saves
    nothing and writes no status other than [ACTIVE]. *)
Theorem failed_reminder_never_closes (cfg : Config) (w : World) (s : State) :
  send_reminder_result w = None ->
  untouched false (db_polls s) (trace s) (snd (Unified.main cfg w s))
  /\ untouched false (db_polls s) (trace s) (snd (Threading.main cfg w s)).
Proof.
  intros Hw.
  assert (Hst : stalls false w) by (left; auto).
  split.
  - apply (stalled_unified_main false _ _ cfg w Hst s), untouched_start.
  - apply (stalled_threading_main false _ _ cfg w Hst s), untouched_start.
Qed.

Lemma failed_reminder_never_closes_witness :
  untouched false None [] (snd (Unified.main sample_cfg world_failing_reminder
                                  (process_start None None)))
  /\ untouched false None [] (snd (Threading.main sample_cfg world_failing_reminder
                                     (process_start None None))).
Proof.
  apply (failed_reminder_never_closes sample_cfg world_failing_reminder
           (process_start None None)).
  reflexivity.
Defined.

(** ** What a successful close records *)

(** The tally [_process_poll_results] stores for the closed poll [cp]. *)
Definition stored_rows (cp : Poll) : list OptionVote :=
  if 0 <? total_voter_count cp
  then map (vote_row (total_voter_count cp)) (options cp)
  else [].

(** X12: when [_close_and_process_poll] returns, it returns the poll
    the close request answered with, and the payload is the one it had
    with the status [CLOSED], the end time, the total and the tally of
    that poll, every other field unchanged; the last thing it did was to
    send the conclusion, which carries that same total and that same
    tally.  Neither the poll collection nor the clock moved. *)
Theorem close_announces_what_it_stores (w : World) (chat_id : Z) (s : State)
    (cp : Poll) :
  fst (BotManager._close_and_process_poll w chat_id s) = Ok cp ->
  let s' := snd (BotManager._close_and_process_poll w chat_id s) in
  stop_poll_result w = Some cp
  /\ poll_payload s'
     = set_option_votes (stored_rows cp)
         (closed_payload w (total_voter_count cp) (poll_payload s))
  /\ (exists tr winner,
        trace s'
        = tr ++ [(clock s, SendMessage chat_id
                             (ConclusionText (total_voter_count cp) (stored_rows cp)
                                             winner))])
  /\ db_polls s' = db_polls s
  /\ clock s' = clock s.
Proof.
  intros Hok. cbv zeta.
  remember (BotManager._close_and_process_poll w chat_id s) as r eqn:Hr.
  unfold BotManager._close_and_process_poll, BotManager._send_conclusion in Hr.
  cbv [bind ret raise lift gets get modify emit logger store request] in Hr.
  destruct (stop_poll_result w) as [cp0|]; [|subst r; discriminate Hok].
  destruct (0 <? total_voter_count cp0) eqn:Hpos.
  - rewrite process_positive in Hr by (apply Z.ltb_lt; exact Hpos).
    destruct (announce _) as [winner|e|c]; [|subst r; discriminate Hok..].
    destruct (send_conclusion_result w); subst r; [|discriminate Hok].
    cbn [fst snd] in *. injection Hok as <-.
    unfold stored_rows. rewrite Hpos.
    split; [reflexivity|]. split; [reflexivity|]. split; [|split; reflexivity].
    eexists _, winner. reflexivity.
  - rewrite process_no_votes in Hr by (apply Z.ltb_ge; exact Hpos).
    destruct (send_conclusion_result w); subst r; [|discriminate Hok].
    cbn [fst snd] in *. injection Hok as <-.
    unfold stored_rows. rewrite Hpos.
    split; [reflexivity|]. split; [reflexivity|]. split; [|split; reflexivity].
    eexists _, _. reflexivity.
Qed.

Lemma close_announces_what_it_stores_witness :
  poll_payload
    (snd (BotManager._close_and_process_poll
            (sample_world (closed_poll_of 3 [("Option A", 2); ("Option B", 1)])) 1
            (process_start None None)))
  = set_option_votes
      (stored_rows (closed_poll_of 3 [("Option A", 2); ("Option B", 1)]))
      (closed_payload
         (sample_world (closed_poll_of 3 [("Option A", 2); ("Option B", 1)])) 3
         fresh_payload).
Proof.
  refine (proj1 (proj2 (close_announces_what_it_stores
                          (sample_world
                             (closed_poll_of 3 [("Option A", 2); ("Option B", 1)]))
                          1 (process_start None None)
                          (closed_poll_of 3 [("Option A", 2); ("Option B", 1)]) _))).
  reflexivity.
Defined.
